(** * Online Retail API: the product service of [src/scr/index.js]

    A shallow embedding of the request handlers of the Express application
    and of the parts of JavaScript, Express, node-postgres and PostgreSQL
    they rely on, followed by the properties of the service.

    Conventions of the model.
    - A JavaScript string is a [string] of bytes, its UTF-8 text.  The
      white space and the letter case of the model are those of ASCII:
      what depends on them is stated of ASCII text ([ascii_text],
      [text_param]), where they are those of JavaScript.
    - A JavaScript number is [NaN], an infinity or an exact rational.  The
      model agrees with IEEE doubles where the double arithmetic is exact:
      what depends on the value of a number is stated of integers up to
      2^53 ([integer_param]) and of numbers that are not read from text
      ([reads_text]); whether a string is a number at all does not depend
      on rounding.
    - A conversion to a number throws on a value without a primitive value
      ([Js.has_primitive]); the validation middleware, which has no [try],
      takes that path.
    - A request is taken after the JSON and query-string parsers have run;
      the CORS middleware and the documentation pages under [/api-docs] are
      left out.
    - The store is a parameter of the handlers ([Store]).  [Pg] gives the
      PostgreSQL meaning of the statements that read the table and of
      DELETE, on a table of products.  Text is compared byte by byte; the
      order of rows with equal sort keys is left open ([Pg.selects]);
      integers are read in the decimal syntax every release shares, and
      [Pg.may_read_integer] bounds what later releases read besides. *)

From Stdlib Require Import ZArith QArith List String Ascii Bool Lia.
From Stdlib Require Import Sorted Permutation.
From Stdlib Require Qcanon.
Import ListNotations.

Set Warnings "-register-all".

Local Open Scope string_scope.
Local Open Scope Z_scope.

(** ** Characters and strings *)

Definition chars (s : string) : list ascii := list_ascii_of_string s.
Definition str (l : list ascii) : string := string_of_list_ascii l.

Definition char_code (c : ascii) : Z := Z.of_nat (nat_of_ascii c).

Definition is_digit (c : ascii) : bool := (48 <=? char_code c) && (char_code c <=? 57).

Definition digit_val (c : ascii) : Z := char_code c - 48.

(** Value of a hexadecimal digit, [None] for any other character. *)
Definition hex_val (c : ascii) : option Z :=
  let n := char_code c in
  if (48 <=? n) && (n <=? 57) then Some (n - 48)
  else if (65 <=? n) && (n <=? 70) then Some (n - 55)
  else if (97 <=? n) && (n <=? 102) then Some (n - 87)
  else None.

Definition radix_val (radix : Z) (c : ascii) : option Z :=
  match hex_val c with
  | Some v => if v <? radix then Some v else None
  | None => None
  end.

(** TAB, LF, VT, FF, CR and SP: the ASCII part of StrWhiteSpaceChar. *)
Definition is_space (c : ascii) : bool :=
  let n := char_code c in ((9 <=? n) && (n <=? 13)) || (n =? 32).

Definition to_upper (c : ascii) : ascii :=
  let n := nat_of_ascii c in
  if (97 <=? n)%nat && (n <=? 122)%nat then ascii_of_nat (n - 32) else c.

Definition to_lower (c : ascii) : ascii :=
  let n := nat_of_ascii c in
  if (65 <=? n)%nat && (n <=? 90)%nat then ascii_of_nat (n + 32) else c.

(** [String.prototype.toUpperCase], on ASCII text. *)
Definition toUpperCase (s : string) : string := str (map to_upper (chars s)).

Fixpoint drop_while (p : ascii -> bool) (l : list ascii) : list ascii :=
  match l with
  | [] => []
  | c :: l' => if p c then drop_while p l' else l
  end.

Fixpoint take_while (p : ascii -> bool) (l : list ascii) : list ascii :=
  match l with
  | [] => []
  | c :: l' => if p c then c :: take_while p l' else []
  end.

Definition trim_start (l : list ascii) : list ascii := drop_while is_space l.

Definition trim (l : list ascii) : list ascii :=
  rev (drop_while is_space (rev (drop_while is_space l))).

(** Most significant digit first. *)
Definition digits_val (radix : Z) (ds : list Z) : Z :=
  fold_left (fun acc d => acc * radix + d) ds 0.

Definition dec_val (l : list ascii) : Z := digits_val 10 (map digit_val l).

(** ** JavaScript numbers *)

Module Js.

Inductive number : Type :=
| NaN
| Infinity (negative : bool)
| Fin (q : Q).

Definition of_Z (z : Z) : number := Fin (inject_Z z).

Definition is_nan (n : number) : bool :=
  match n with NaN => true | _ => false end.

Definition neg (n : number) : number :=
  match n with
  | NaN => NaN
  | Infinity b => Infinity (negb b)
  | Fin q => Fin (Qred (- q))
  end.

Definition is_zero (n : number) : bool :=
  match n with Fin q => Qeq_bool q 0 | _ => false end.

(** [x - y] on numbers. *)
Definition sub (x y : number) : number :=
  match x, y with
  | NaN, _ | _, NaN => NaN
  | Infinity a, Infinity b => if Bool.eqb a b then NaN else Infinity a
  | Infinity a, Fin _ => Infinity a
  | Fin _, Infinity b => Infinity (negb b)
  | Fin p, Fin q => Fin (Qred (p - q))
  end.

(** [x * y] on numbers. *)
Definition mul (x y : number) : number :=
  match x, y with
  | NaN, _ | _, NaN => NaN
  | Infinity a, Infinity b => Infinity (xorb a b)
  | Infinity a, Fin q | Fin q, Infinity a =>
      if Qeq_bool q 0 then NaN else Infinity (xorb a (negb (Qle_bool 0 q)))
  | Fin p, Fin q => Fin (Qred (p * q))
  end.

(** [x <= y]: false as soon as one side is [NaN]. *)
Definition le (x y : number) : bool :=
  match x, y with
  | NaN, _ | _, NaN => false
  | Infinity a, Infinity b => a || negb b
  | Infinity a, Fin _ => a
  | Fin _, Infinity b => negb b
  | Fin p, Fin q => Qle_bool p q
  end.

(** The integer a number denotes, when it denotes one. *)
Definition to_Z (n : number) : option Z :=
  match n with
  | Fin q => let r := Qred q in
             if Pos.eqb (Qden r) 1 then Some (Qnum r) else None
  | _ => None
  end.

(** *** StringToNumber *)

Definition char_in (c : ascii) (s : string) : bool :=
  existsb (Ascii.eqb c) (chars s).

(** [m * 10^e] as a number. *)
Definition scale10 (m e : Z) : number :=
  if 0 <=? e then Fin (inject_Z (m * 10 ^ e))
  else Fin (Qred (Qmake m (Z.to_pos (10 ^ (- e))))).

(** A non-empty run of digits of the radix and nothing else. *)
Fixpoint radix_digits (radix : Z) (l : list ascii) : option (list Z) :=
  match l with
  | [] => Some []
  | c :: l' =>
      match radix_val radix c, radix_digits radix l' with
      | Some v, Some vs => Some (v :: vs)
      | _, _ => None
      end
  end.

Definition NonDecimalIntegerLiteral (radix : Z) (l : list ascii) : number :=
  match l, radix_digits radix l with
  | _ :: _, Some ds => of_Z (digits_val radix ds)
  | _, _ => NaN
  end.

(** ExponentPart, or nothing; [None] when what is left is neither. *)
Definition ExponentPart (l : list ascii) : option Z :=
  match l with
  | [] => Some 0
  | c :: l' =>
      if char_in c "eE" then
        let '(negative, ds) :=
          match l' with
          | s :: l'' =>
              if Ascii.eqb s "-" then (true, l'')
              else if Ascii.eqb s "+" then (false, l'')
              else (false, l')
          | [] => (false, l')
          end in
        match ds with
        | [] => None
        | _ :: _ =>
            if forallb is_digit ds
            then Some (if negative then - dec_val ds else dec_val ds)
            else None
        end
      else None
  end.

Definition StrUnsignedDecimalLiteral (l : list ascii) : number :=
  if String.eqb (str l) "Infinity" then Infinity false
  else
    let ip := take_while is_digit l in
    let rest := drop_while is_digit l in
    let '(fp, rest') :=
      match rest with
      | c :: r =>
          if Ascii.eqb c "."
          then (take_while is_digit r, drop_while is_digit r)
          else ([], rest)
      | [] => ([], rest)
      end in
    match ip, fp with
    | [], [] => NaN
    | _, _ =>
        match ExponentPart rest' with
        | Some e => scale10 (dec_val (ip ++ fp)%list) (e - Z.of_nat (List.length fp))
        | None => NaN
        end
    end.

Definition StrDecimalLiteral (l : list ascii) : number :=
  match l with
  | c :: l' =>
      if Ascii.eqb c "-" then neg (StrUnsignedDecimalLiteral l')
      else if Ascii.eqb c "+" then StrUnsignedDecimalLiteral l'
      else StrUnsignedDecimalLiteral l
  | [] => NaN
  end.

(** The literal between the white space; the empty one is zero. *)
Definition StrNumericLiteral (l : list ascii) : number :=
  match l with
  | [] => of_Z 0
  | c :: d :: l' =>
      if Ascii.eqb c "0" && char_in d "xX" then NonDecimalIntegerLiteral 16 l'
      else if Ascii.eqb c "0" && char_in d "oO" then NonDecimalIntegerLiteral 8 l'
      else if Ascii.eqb c "0" && char_in d "bB" then NonDecimalIntegerLiteral 2 l'
      else StrDecimalLiteral l
  | _ => StrDecimalLiteral l
  end.

(** [Number(s)] for a string [s]: the white space is that of ASCII and the
    value of the literal is kept as it is written, where a double rounds
    it. *)
Definition StringToNumber (s : string) : number :=
  StrNumericLiteral (trim (chars s)).

(** *** parseInt, without a radix argument

    White space is that of ASCII and the integer is kept as it is written,
    where a double rounds it. *)

Fixpoint radix_prefix (radix : Z) (l : list ascii) : list Z :=
  match l with
  | [] => []
  | c :: l' =>
      match radix_val radix c with
      | Some v => v :: radix_prefix radix l'
      | None => []
      end
  end.

(** The digits after the sign: a [0x] prefix selects radix 16. *)
Definition parseInt_digits (negative : bool) (l : list ascii) : number :=
  let '(radix, l) :=
    match l with
    | c :: d :: l' =>
        if Ascii.eqb c "0" && char_in d "xX" then (16, l') else (10, l)
    | _ => (10, l)
    end in
  match radix_prefix radix l with
  | [] => NaN
  | ds => let v := digits_val radix ds in of_Z (if negative then - v else v)
  end.

Definition parseInt (s : string) : number :=
  match trim_start (chars s) with
  | c :: l' =>
      if Ascii.eqb c "-" then parseInt_digits true l'
      else if Ascii.eqb c "+" then parseInt_digits false l'
      else parseInt_digits false (c :: l')
  | [] => NaN
  end.

(** *** Values

    The values a request carries: the parsed JSON body and the parsed query
    string (strings, and arrays or objects of them for repeated or
    bracketed parameters). *)

Inductive value : Type :=
| VUndefined
| VNull
| VBool (b : bool)
| VNum (n : number)
| VStr (s : string)
| VArr (items : list value)
| VObj (fields : list (string * value)).

(** ToBoolean. *)
Definition truthy (v : value) : bool :=
  match v with
  | VUndefined | VNull => false
  | VBool b => b
  | VNum n => negb (is_nan n || is_zero n)
  | VStr s => negb (String.eqb s "")
  | VArr _ | VObj _ => true
  end.

(** ToPrimitive.  A value parsed from JSON is a plain object or an array:
    its [valueOf] is the inherited one, which returns the object, so the
    conversion rests on [toString].  An object with a member [toString] of
    its own has no function there and the conversion throws a TypeError;
    any other object is ["[object Object]"]; an array joins the strings of
    its elements and throws when one of them does. *)
Fixpoint has_primitive (v : value) : bool :=
  match v with
  | VObj fields => negb (existsb (fun kv => String.eqb (fst kv) "toString") fields)
  | VArr items =>
      (fix all (l : list value) : bool :=
         match l with
         | [] => true
         | x :: l' => has_primitive x && all l'
         end) items
  | _ => true
  end.

(** ToNumber of a value that has a primitive value.  An array goes through
    its [join(",")]: the empty array is the empty string, a singleton is the
    string of its element and a longer one holds a comma, which no numeric
    literal does; a plain object is ["[object Object]"]. *)
Fixpoint ToNumber (v : value) : number :=
  match v with
  | VUndefined => NaN
  | VNull => of_Z 0
  | VBool b => of_Z (if b then 1 else 0)
  | VNum n => n
  | VStr s => StringToNumber s
  | VArr [] => of_Z 0
  | VArr [x] =>
      match x with
      | VUndefined | VNull => of_Z 0
      | VBool _ | VObj _ => NaN
      | VNum _ | VStr _ | VArr _ => ToNumber x
      end
  | VArr (_ :: _ :: _) => NaN
  | VObj _ => NaN
  end.

(** The global [isNaN], on a value that has a primitive value. *)
Definition isNaN (v : value) : bool := is_nan (ToNumber v).

(** [v !== undefined]. *)
Definition is_defined (v : value) : bool :=
  match v with VUndefined => false | _ => true end.

(** [o.k] (or a destructuring [{k} = o]): [undefined] when [o] has no such
    field or is not an object with fields. *)
Fixpoint lookup (k : string) (fields : list (string * value)) : value :=
  match fields with
  | [] => VUndefined
  | (k', v) :: rest => if String.eqb k k' then v else lookup k rest
  end.

Definition prop (k : string) (o : value) : value :=
  match o with VObj fields => lookup k fields | _ => VUndefined end.

(** The values of a parsed query string ([req.query]): a string, an array
    for a repeated parameter, an object for a bracketed one. *)
Inductive qvalue : Type :=
| QStr (s : string)
| QArr (items : list qvalue)
| QObj (fields : list (string * qvalue)).

Fixpoint of_query (q : qvalue) : value :=
  match q with
  | QStr s => VStr s
  | QArr items => VArr (map of_query items)
  | QObj fields => VObj (map (fun kv => (fst kv, of_query (snd kv))) fields)
  end.

(** ToString, as a template literal applies it, of a query value that has
    a primitive value. *)
Fixpoint ToString (q : qvalue) : string :=
  match q with
  | QStr s => s
  | QArr items =>
      (fix join (l : list qvalue) : string :=
         match l with
         | [] => ""
         | [x] => ToString x
         | x :: l' => ToString x ++ "," ++ join l'
         end) items
  | QObj _ => "[object Object]"
  end.

(** ToBoolean of a query value: only the empty string is falsy. *)
Definition qtruthy (q : qvalue) : bool := truthy (of_query q).

Fixpoint qlookup (k : string) (fields : list (string * qvalue)) : option qvalue :=
  match fields with
  | [] => None
  | (k', v) :: rest => if String.eqb k k' then Some v else qlookup k rest
  end.

End Js.


(** ** The store

    The products table, the statements the service sends and what a store
    answers.  The schema is not part of the repository; the columns are
    those of the data model of the specification. *)

Record Product : Type := {
  product_id : Z;
  stock_code : string;
  description : string;
  unit_price : option Q;
  stock_quantity : Z;
  reorder_level : Z;
  is_active : bool;
  updated_at : Z
}.

Definition Table : Type := list Product.

(** A row of a result: [SELECT *] and [RETURNING *] give products, the
    low-stock statement five columns, the summary four aggregates and the
    health statement the time of the store. *)
Inductive Row : Type :=
| RProduct (p : Product)
| RLowStock (id : Z) (code descr : string) (quantity level : Z)
| RSummary (total_products active_products : Z) (avg_price : option Q)
           (total_stock : option Z)
| RNow (current_time : Z).

(** The statements of the source with their parameter arrays.  What the
    source interpolates into the text ([whereClause], [sortColumn], [order],
    [searchField]) is a field of the statement as well. *)
Inductive Query : Type :=
| SelectProducts (pattern : option string) (sortColumn order : string)
                 (limit offset : Js.value)
| SelectWhere (searchField : string) (param : Js.value)
| InsertProduct (stock_code description unit_price : Js.value)
| UpdateProduct (stock_code description unit_price : Js.value) (id : string)
| DeleteProduct (id : string)
| SelectSummary
| SelectLowStock
| SelectNow.

(** A thrown JavaScript error: [error.code] (undefined on a [TypeError]) and
    [error.message]. *)
Record JsError : Type := {
  code : option string;
  message : string
}.

Inductive QueryResult : Type :=
| Rows (rows : list Row)
| Raise (e : JsError).

(** The pool and the store behind it: whether [pool.connect()] resolves, the
    error it rejects with otherwise, and the answer to a statement together
    with the table it leaves. *)
Record Store : Type := {
  accepts : bool;
  refusal : JsError;
  answer : Query -> Table -> QueryResult * Table
}.

(** ** Reference semantics of the statements (PostgreSQL) *)

Module Pg.

Definition sqlstate (c : string) : JsError :=
  {| code := Some c; message := "SQLSTATE " ++ c |}.

Definition invalid_text_representation := "22P02".
Definition numeric_value_out_of_range := "22003".
Definition invalid_row_count_in_limit_clause := "2201W".
Definition invalid_row_count_in_result_offset_clause := "2201X".
Definition undefined_column := "42703".
Definition syntax_error := "42601".
Definition feature_not_supported := "0A000".

Inductive bound (A : Type) : Type :=
| Ok (a : A)
| Err (state : string).
Arguments Ok {A} a.
Arguments Err {A} state.

(** Integer input in its decimal syntax, which every release of PostgreSQL
    reads alike: white space, an optional sign, digits, white space. *)
Definition int_digits (negative : bool) (l : list ascii) : option Z :=
  match take_while is_digit l with
  | [] => None
  | ds =>
      if forallb is_space (drop_while is_digit l)
      then Some (if negative then - dec_val ds else dec_val ds)
      else None
  end.

Definition int_in (s : string) : option Z :=
  match drop_while is_space (chars s) with
  | c :: l' =>
      if Ascii.eqb c "-" then int_digits true l'
      else if Ascii.eqb c "+" then int_digits false l'
      else int_digits false (c :: l')
  | [] => None
  end.






Definition in_range (bits : Z) (z : Z) : bool :=
  (- 2 ^ (bits - 1) <=? z) && (z <? 2 ^ (bits - 1)).

Definition ranged (bits : Z) (z : Z) : bound (option Z) :=
  if in_range bits z then Ok (Some z) else Err numeric_value_out_of_range.

(** A parameter bound to an integer of [bits] bits.  node-postgres sends the
    text of the value: [null] and [undefined] are NULL, a string is sent as
    it is, a number as its decimal text (an integer below 10^21 is its
    digits, any other number is text no integer input accepts), a boolean as
    [true] or [false], an array or an object as text starting with a
    brace. *)
Definition bind_int (bits : Z) (v : Js.value) : bound (option Z) :=
  match v with
  | Js.VUndefined | Js.VNull => Ok None
  | Js.VStr s =>
      match int_in s with
      | Some z => ranged bits z
      | None => Err invalid_text_representation
      end
  | Js.VNum n =>
      match Js.to_Z n with
      | Some z => if Z.abs z <? 10 ^ 21 then ranged bits z
                  else Err invalid_text_representation
      | None => Err invalid_text_representation
      end
  | Js.VBool _ | Js.VArr _ | Js.VObj _ => Err invalid_text_representation
  end.

(** *** LIKE and ILIKE *)

Definition same_char (fold : ascii -> ascii) (x y : ascii) : bool :=
  Ascii.eqb (fold x) (fold y).

(** [%] matches any run of characters, [_] exactly one, a backslash quotes
    the character after it.  (A pattern ending in a lone backslash is an
    error of the store; a pattern of the service ends in [%].) *)
Fixpoint like_chars (fold : ascii -> ascii) (p : list ascii)
  : list ascii -> bool :=
  match p with
  | [] => fun s => match s with [] => true | _ :: _ => false end
  | c :: p' =>
      if Ascii.eqb c "%" then
        fix any (s : list ascii) : bool :=
          like_chars fold p' s
          || match s with [] => false | _ :: s' => any s' end
      else if Ascii.eqb c "_" then
        fun s => match s with [] => false | _ :: s' => like_chars fold p' s' end
      else if Ascii.eqb c "\" then
        match p' with
        | [] => fun _ => false
        | d :: p'' =>
            fun s => match s with
                     | [] => false
                     | x :: s' => same_char fold x d && like_chars fold p'' s'
                     end
        end
      else
        fun s => match s with
                 | [] => false
                 | x :: s' => same_char fold x c && like_chars fold p' s'
                 end
  end.

Definition ilike (text pattern : string) : bool :=
  like_chars to_lower (chars pattern) (chars text).

(** *** ORDER BY *)

Section Sort.
Context {A : Type} (le : A -> A -> bool).

Fixpoint insert (x : A) (l : list A) : list A :=
  match l with
  | [] => [x]
  | y :: l' => if le x y then x :: l else y :: insert x l'
  end.

Definition sort (l : list A) : list A := fold_right insert [] l.
End Sort.

(** NULL sorts after every value in ascending order. *)
Definition price_le (a b : option Q) : bool :=
  match a, b with
  | _, None => true
  | None, Some _ => false
  | Some x, Some y => Qle_bool x y
  end.

Definition column_le (column : string) : option (Product -> Product -> bool) :=
  if String.eqb column "product_id"
  then Some (fun a b => product_id a <=? product_id b)
  else if String.eqb column "stock_code"
  then Some (fun a b => String.leb (stock_code a) (stock_code b))
  else if String.eqb column "description"
  then Some (fun a b => String.leb (description a) (description b))
  else if String.eqb column "unit_price"
  then Some (fun a b => price_le (unit_price a) (unit_price b))
  else None.

Definition directed (order : string) (le : Product -> Product -> bool)
  : option (Product -> Product -> bool) :=
  if String.eqb order "ASC" then Some le
  else if String.eqb order "DESC" then Some (fun a b => le b a)
  else None.

(** *** The statements *)

(** [WHERE stock_code ILIKE $1 OR description ILIKE $1], or no clause. *)
Definition where_clause (pattern : option string) (p : Product) : bool :=
  match pattern with
  | None => true
  | Some pat => ilike (stock_code p) pat || ilike (description p) pat
  end.

(** What the listing statement may select before LIMIT and OFFSET: the
    rows of the WHERE clause in an order that agrees with ORDER BY.
    PostgreSQL leaves the order of rows with equal sort keys open, also
    between two runs of a statement. *)
Definition selects (pattern : option string)
    (le : Product -> Product -> bool) (t : Table) (all : list Product) : Prop :=
  Permutation all (filter (where_clause pattern) t)
  /\ Sorted (fun a b => le a b = true) all.

(** One such selection: rows with equal sort keys in the order of the
    table. *)
Definition selected (pattern : option string)
    (le : Product -> Product -> bool) (t : Table) : list Product :=
  sort le (filter (where_clause pattern) t).

(** [LIMIT count OFFSET start]; a NULL count is no limit. *)
Definition page_of (count : option Z) (start : Z) (l : list Product)
  : list Product :=
  let rest := skipn (Z.to_nat start) l in
  match count with
  | Some n => firstn (Z.to_nat n) rest
  | None => rest
  end.

(** [ORDER BY sortColumn order]: the column has to exist and the direction
    to be a keyword. *)
Definition ordering (sortColumn order : string)
  : bound (Product -> Product -> bool) :=
  match column_le sortColumn with
  | None => Err undefined_column
  | Some le =>
      match directed order le with
      | None => Err syntax_error
      | Some le' => Ok le'
      end
  end.

(** [LIMIT $n OFFSET $m] on the selected rows [all]: the parameters are
    bound in their order, then the counts are checked. *)
Definition paged (all : list Product) (limit offset : Js.value) : QueryResult :=
  match bind_int 64 limit, bind_int 64 offset with
  | Err c, _ => Raise (sqlstate c)
  | _, Err c => Raise (sqlstate c)
  | Ok count, Ok start =>
      let start := match start with Some z => z | None => 0 end in
      if start <? 0
      then Raise (sqlstate invalid_row_count_in_result_offset_clause)
      else if match count with Some n => n <? 0 | None => false end
      then Raise (sqlstate invalid_row_count_in_limit_clause)
      else Rows (map RProduct (page_of count start all))
  end.

Definition select_products (pattern : option string)
    (sortColumn order : string) (limit offset : Js.value) (t : Table)
  : QueryResult :=
  match ordering sortColumn order with
  | Err c => Raise (sqlstate c)
  | Ok le => paged (selected pattern le t) limit offset
  end.

(** [SELECT * FROM products WHERE product_id = $1]. *)
Definition select_by_product_id (param : Js.value) (t : Table) : QueryResult :=
  match bind_int 32 param with
  | Err c => Raise (sqlstate c)
  | Ok None => Rows []
  | Ok (Some z) => Rows (map RProduct (filter (fun p => product_id p =? z) t))
  end.

(** [SELECT * FROM products WHERE stock_code = $1], on a string. *)
Definition select_by_stock_code (s : string) (t : Table) : QueryResult :=
  Rows (map RProduct (filter (fun p => String.eqb (stock_code p) s) t)).

(** [DELETE FROM products WHERE product_id=$1 RETURNING *]. *)
Definition delete_product (id : string) (t : Table) : QueryResult * Table :=
  match bind_int 32 (Js.VStr id) with
  | Err c => (Raise (sqlstate c), t)
  | Ok None => (Rows [], t)
  | Ok (Some z) =>
      (Rows (map RProduct (filter (fun p => product_id p =? z) t)),
       filter (fun p => negb (product_id p =? z)) t)
  end.

Definition low_stock_row (p : Product) : Row :=
  RLowStock (product_id p) (stock_code p) (description p)
            (stock_quantity p) (reorder_level p).

Definition is_low_stock (p : Product) : bool :=
  stock_quantity p <=? reorder_level p.

(** [SELECT ... WHERE stock_quantity <= reorder_level ORDER BY stock_quantity
    ASC]. *)
Definition select_low_stock (t : Table) : QueryResult :=
  Rows (map low_stock_row
          (sort (fun a b => stock_quantity a <=? stock_quantity b)
                (filter is_low_stock t))).

(** A store answers as PostgreSQL does on the statements above.  The
    listing is paged out of some selection in the order of its ORDER BY.
    An UPDATE whose [$4] is no integer fails when its parameters are bound,
    with the state of a malformed or of an out-of-range parameter. *)
Record conforms (store : Store) : Prop := {
  conforms_list : forall pattern sortColumn order limit offset t,
    match ordering sortColumn order with
    | Err c =>
        answer store (SelectProducts pattern sortColumn order limit offset) t
        = (Raise (sqlstate c), t)
    | Ok le =>
        exists all,
          selects pattern le t all
          /\ answer store (SelectProducts pattern sortColumn order limit offset) t
             = (paged all limit offset, t)
    end;
  conforms_by_id : forall param t,
    answer store (SelectWhere "product_id" param) t
    = (select_by_product_id param t, t);
  conforms_by_code : forall s t,
    answer store (SelectWhere "stock_code" (Js.VStr s)) t
    = (select_by_stock_code s t, t);
  conforms_low_stock : forall t,
    answer store SelectLowStock t = (select_low_stock t, t);
  conforms_delete : forall id t,
    answer store (DeleteProduct id) t = delete_product id t;
  conforms_update : forall sc d up id t c,
    bind_int 32 (Js.VStr id) = Err c ->
    exists c', answer store (UpdateProduct sc d up id) t
               = (Raise (sqlstate c'), t)
               /\ (c' = invalid_text_representation
                   \/ c' = numeric_value_out_of_range)
}.

(** A sample of a conforming store, for examples: it is reachable, answers
    the statements above by their reference semantics and reports the
    others as unsupported. *)
Definition sample : Store := {|
  accepts := true;
  refusal := {| code := None; message := "timeout exceeded when trying to connect" |};
  answer q t :=
    match q with
    | SelectProducts pattern sortColumn order limit offset =>
        (select_products pattern sortColumn order limit offset t, t)
    | SelectWhere field param =>
        if String.eqb field "product_id"
        then (select_by_product_id param t, t)
        else match param with
             | Js.VStr s =>
                 if String.eqb field "stock_code"
                 then (select_by_stock_code s t, t)
                 else (Raise (sqlstate undefined_column), t)
             | _ => (Raise (sqlstate feature_not_supported), t)
             end
    | DeleteProduct id => delete_product id t
    | SelectLowStock => (select_low_stock t, t)
    | UpdateProduct _ _ _ id =>
        match bind_int 32 (Js.VStr id) with
        | Err c => (Raise (sqlstate c), t)
        | Ok _ => (Raise (sqlstate feature_not_supported), t)
        end
    | InsertProduct _ _ _ | SelectSummary | SelectNow =>
        (Raise (sqlstate feature_not_supported), t)
    end
|}.

End Pg.

(** ** Requests, responses and the handler monad *)

Inductive Method : Type := GET | POST | PUT | DELETE.

(** A request after the body and query parsers: the path by its segments
    ([/api/products/7] is [["api"; "products"; "7"]]), [req.query] and
    [req.body]. *)
Record Request : Type := {
  method : Method;
  path : list string;
  query : list (string * Js.qvalue);
  body : Js.value
}.

(** A member of a response object. *)
Inductive Field : Type :=
| FUndefined
| FBool (b : bool)
| FStr (s : string)
| FTime (t : Z)
| FRow (r : Row)
| FRows (rs : list Row).

Record Response : Type := {
  status : Z;
  json : list (string * Field)
}.

Inductive Event : Type :=
| Connected
| Released
| Issued (q : Query)
| Logged (e : JsError).

(** What a request can change: the table, the response (none until one is
    sent) and the trace of pool, store and console events, oldest first. *)
Record World : Type := {
  table : Table;
  response : option Response;
  trace : list Event
}.

Definition fresh (t : Table) : World :=
  {| table := t; response := None; trace := [] |}.

Definition emit (e : Event) (w : World) : World :=
  {| table := table w; response := response w; trace := trace w ++ [e] |}.

(** A computation finishes with a value or throws. *)
Definition M (A : Type) : Type := World -> (A + JsError) * World.

Definition ret {A : Type} (a : A) : M A := fun w => (inl a, w).

Definition throw {A : Type} (e : JsError) : M A := fun w => (inr e, w).

Definition bind {A B : Type} (m : M A) (k : A -> M B) : M B :=
  fun w =>
    match m w with
    | (inl a, w') => k a w'
    | (inr e, w') => (inr e, w')
    end.

Notation "x <- m ;; k" := (bind m (fun x => k))
  (at level 61, m at next level, right associativity).
Notation "m ;; k" := (bind m (fun _ => k))
  (at level 61, right associativity).

(** [try { body } catch (error) { handler } finally { finalizer }]. *)
Definition try_catch_finally (body : M unit) (handler : JsError -> M unit)
    (finalizer : M unit) : M unit :=
  fun w =>
    let '(r, w1) := body w in
    let '(r', w2) :=
      match r with
      | inl _ => (inl tt, w1)
      | inr e => handler e w1
      end in
    match finalizer w2 with
    | (inl _, w3) => (r', w3)
    | (inr e, w3) => (inr e, w3)
    end.

(** [try { body } catch (error) { handler }]. *)
Definition try_catch (body : M unit) (handler : JsError -> M unit) : M unit :=
  fun w =>
    match body w with
    | (inl _, w1) => (inl tt, w1)
    | (inr e, w1) => handler e w1
    end.

Definition TypeError (msg : string) : JsError :=
  {| code := None; message := msg |}.

(** [JSON.stringify] leaves out the members whose value is [undefined]. *)
Definition stringify (members : list (string * Field)) : list (string * Field) :=
  filter (fun m => match snd m with FUndefined => false | _ => true end) members.

(** [res.status(s).json(members)]: a second response on one request is
    refused. *)
Definition res_status_json (s : Z) (members : list (string * Field)) : M unit :=
  fun w =>
    match response w with
    | None =>
        (inl tt,
         {| table := table w;
            response := Some {| status := s; json := stringify members |};
            trace := trace w |})
    | Some _ =>
        (inr {| code := Some "ERR_HTTP_HEADERS_SENT";
                message := "Cannot set headers after they are sent to the client" |},
         w)
    end.

(** [res.json(members)]: status 200. *)
Definition res_json (members : list (string * Field)) : M unit :=
  res_status_json 200 members.

(** [console.error('Database error:', error)]. *)
Definition console_error (e : JsError) : M unit :=
  fun w => (inl tt, emit (Logged e) w).

(** [result.rows[0]]. *)
Definition first_row (rows : list Row) : Field :=
  match rows with
  | [] => FUndefined
  | r :: _ => FRow r
  end.

(** ** The service *)

Section Service.

Variable store : Store.

(** [pool.connect()]. *)
Definition pool_connect : M unit :=
  fun w => if accepts store then (inl tt, emit Connected w)
           else (inr (refusal store), w).

(** [client.release()]. *)
Definition client_release : M unit :=
  fun w => (inl tt, emit Released w).

(** [client.query(text, params)]. *)
Definition client_query (q : Query) : M (list Row) :=
  fun w =>
    let w := emit (Issued q) w in
    match answer store q (table w) with
    | (Rows rows, t') =>
        (inl rows, {| table := t'; response := response w; trace := trace w |})
    | (Raise e, t') =>
        (inr e, {| table := t'; response := response w; trace := trace w |})
    end.

(** [pool.query(text)]: the pool checks a client out, runs the statement on
    it and takes it back. *)
Definition pool_query (q : Query) : M (list Row) :=
  pool_connect ;;
  fun w =>
    match client_query q w with
    | (r, w') => (r, emit Released w')
    end.

(** Validation middleware.  [isNaN(unit_price)] converts the value to a
    number, which throws on a value without a primitive value; the
    middleware has no [try] around it. *)
Definition validateProduct (req : Request) (next : M unit) : M unit :=
  let stock_code := Js.prop "stock_code" (body req) in
  let description := Js.prop "description" (body req) in
  let unit_price := Js.prop "unit_price" (body req) in
  if negb (Js.truthy stock_code) || negb (Js.truthy description) then
    res_status_json 400
      [("error", FStr "Missing required fields: stock_code and description")]
  else if Js.is_defined unit_price && negb (Js.has_primitive unit_price) then
    throw (TypeError "Cannot convert object to primitive value")
  else if Js.is_defined unit_price
          && (Js.isNaN unit_price
              || Js.le (Js.ToNumber unit_price) (Js.of_Z 0)) then
    res_status_json 400 [("error", FStr "unit_price must be a positive number")]
  else next.

(** [error.code === c]. *)
Definition has_code (error : JsError) (c : string) : bool :=
  match code error with
  | Some c' => String.eqb c' c
  | None => false
  end.

(** Centralized DB error handler. *)
Definition handleDatabaseError (error : JsError) : M unit :=
  console_error error ;;
  if has_code error "23505" then
    res_status_json 409 [("error", FStr "Duplicate entry detected")]
  else if has_code error "23503" then
    res_status_json 400 [("error", FStr "Invalid foreign key reference")]
  else if has_code error "23514" then
    res_status_json 400 [("error", FStr "Check constraint violation")]
  else
    res_status_json 500 [("error", FStr "Internal server error")].

(** The frame every product handler has: a client is checked out before the
    [try], store errors go to [handleDatabaseError], the client is released
    in the [finally]. *)
Definition with_client (body : M unit) : M unit :=
  pool_connect ;;
  try_catch_finally body handleDatabaseError client_release.

(** *** GET /api/products *)

Definition validSort : list string :=
  ["product_id"; "stock_code"; "description"; "unit_price"].

(** [validSort.includes(sort_by) ? sort_by : 'stock_code']. *)
Definition sortColumn (sort_by : Js.qvalue) : string :=
  match sort_by with
  | Js.QStr s => if existsb (String.eqb s) validSort then s else "stock_code"
  | _ => "stock_code"
  end.

(** [sort_order.toUpperCase() === 'DESC' ? 'DESC' : 'ASC']; a value that is
    no string has no [toUpperCase]. *)
Definition order (sort_order : Js.qvalue) : M string :=
  match sort_order with
  | Js.QStr s =>
      ret (if String.eqb (toUpperCase s) "DESC" then "DESC" else "ASC")
  | _ => throw (TypeError "sort_order.toUpperCase is not a function")
  end.

(** A query parameter with its default. *)
Definition param (req : Request) (name : string) (default : Js.qvalue)
  : Js.qvalue :=
  match Js.qlookup name (query req) with
  | Some v => v
  | None => default
  end.

Definition page (req : Request) : Js.value :=
  match Js.qlookup "page" (query req) with
  | Some v => Js.of_query v
  | None => Js.VNum (Js.of_Z 1)
  end.

Definition limit (req : Request) : Js.value :=
  match Js.qlookup "limit" (query req) with
  | Some v => Js.of_query v
  | None => Js.VNum (Js.of_Z 10)
  end.

(** [(page - 1) * limit], in exact arithmetic: that of doubles as long as
    page, limit and product are integers up to 2^53. *)
Definition offset (req : Request) : Js.number :=
  Js.mul (Js.sub (Js.ToNumber (page req)) (Js.of_Z 1))
         (Js.ToNumber (limit req)).

(** The parameter of the WHERE clause, when there is one. *)
Definition pattern (search : Js.qvalue) : option string :=
  if Js.qtruthy search then Some ("%" ++ Js.ToString search ++ "%") else None.

Definition listProducts (req : Request) : M unit :=
  with_client (
    let search := param req "search" (Js.QStr "") in
    let sort_by := param req "sort_by" (Js.QStr "stock_code") in
    let sort_order := param req "sort_order" (Js.QStr "ASC") in
    ord <- order sort_order ;;
    rows <- client_query
              (SelectProducts (pattern search) (sortColumn sort_by) ord
                              (limit req) (Js.VNum (offset req))) ;;
    res_json [("success", FBool true); ("data", FRows rows)]).

(** *** GET /api/products/:id *)

Definition isNumeric (id : string) : bool := negb (Js.isNaN (Js.VStr id)).

Definition searchField (id : string) : string :=
  if isNumeric id then "product_id" else "stock_code".

(** [isNumeric ? parseInt(id) : id]. *)
Definition searchParam (id : string) : Js.value :=
  if isNumeric id then Js.VNum (Js.parseInt id) else Js.VStr id.

Definition getProduct (id : string) : M unit :=
  with_client (
    rows <- client_query (SelectWhere (searchField id) (searchParam id)) ;;
    if (List.length rows =? 0)%nat
    then res_status_json 404 [("error", FStr "Product not found")]
    else res_json [("success", FBool true); ("data", first_row rows)]).

(** *** POST /api/products *)

Definition createProduct (req : Request) : M unit :=
  with_client (
    rows <- client_query
              (InsertProduct (Js.prop "stock_code" (body req))
                             (Js.prop "description" (body req))
                             (Js.prop "unit_price" (body req))) ;;
    res_status_json 201 [("success", FBool true); ("data", first_row rows)]).

(** *** PUT /api/products/:id *)

Definition updateProduct (id : string) (req : Request) : M unit :=
  with_client (
    rows <- client_query
              (UpdateProduct (Js.prop "stock_code" (body req))
                             (Js.prop "description" (body req))
                             (Js.prop "unit_price" (body req)) id) ;;
    if (List.length rows =? 0)%nat
    then res_status_json 404 [("error", FStr "Product not found")]
    else res_json [("success", FBool true); ("data", first_row rows)]).

(** *** DELETE /api/products/:id *)

Definition deleteProduct (id : string) : M unit :=
  with_client (
    rows <- client_query (DeleteProduct id) ;;
    if (List.length rows =? 0)%nat
    then res_status_json 404 [("error", FStr "Product not found")]
    else res_json [("success", FBool true);
                   ("message", FStr "Product deleted");
                   ("data", first_row rows)]).

(** *** GET /api/products/analytics/summary *)

Definition analyticsSummary : M unit :=
  with_client (
    rows <- client_query SelectSummary ;;
    res_json [("success", FBool true); ("data", first_row rows)]).

(** *** GET /api/products/low-stock *)

Definition lowStock : M unit :=
  with_client (
    rows <- client_query SelectLowStock ;;
    res_json [("success", FBool true); ("data", FRows rows)]).

(** *** GET /api/health *)

(** [result.rows[0].current_time]: reading a member of [undefined] throws. *)
Definition current_time_of (rows : list Row) : M Field :=
  match rows with
  | [] => throw (TypeError
            "Cannot read properties of undefined (reading 'current_time')")
  | RNow t :: _ => ret (FTime t)
  | _ :: _ => ret FUndefined
  end.

Definition health : M unit :=
  try_catch (
    rows <- pool_query SelectNow ;;
    timestamp <- current_time_of rows ;;
    res_json [("success", FBool true); ("status", FStr "healthy");
              ("timestamp", timestamp)])
  (fun error =>
    res_status_json 500 [("success", FBool false); ("status", FStr "unhealthy");
                         ("error", FStr (message error))]).

(** *** Routing

    Express tries the routes in the order of their registration and runs
    the first whose method and path match; no handler of the service passes
    the request on once it has run. *)

Inductive Segment : Type :=
| Lit (s : string)
| Par (name : string).

Definition lower (s : string) : string := str (map to_lower (chars s)).

(** A path matches segment by segment: a literal up to letter case, a
    parameter any non-empty segment, which it binds. *)
Fixpoint match_path (pat : list Segment) (p : list string)
  : option (list (string * string)) :=
  match pat, p with
  | [], [] => Some []
  | Lit s :: pat', x :: p' =>
      if String.eqb (lower x) (lower s) then match_path pat' p' else None
  | Par name :: pat', x :: p' =>
      if String.eqb x "" then None
      else match match_path pat' p' with
           | Some params => Some ((name, x) :: params)
           | None => None
           end
  | _, _ => None
  end.

Fixpoint req_param (name : string) (params : list (string * string)) : string :=
  match params with
  | [] => ""
  | (k, v) :: rest => if String.eqb name k then v else req_param name rest
  end.

Record Route : Type := {
  route_method : Method;
  route_path : list Segment;
  route_handler : list (string * string) -> Request -> M unit
}.

Definition method_eqb (a b : Method) : bool :=
  match a, b with
  | GET, GET | POST, POST | PUT, PUT | DELETE, DELETE => true
  | _, _ => false
  end.

Definition routes : list Route := [
  {| route_method := GET;
     route_path := [Lit "api"; Lit "products"];
     route_handler := fun _ req => listProducts req |};
  {| route_method := GET;
     route_path := [Lit "api"; Lit "products"; Par "id"];
     route_handler := fun params _ => getProduct (req_param "id" params) |};
  {| route_method := POST;
     route_path := [Lit "api"; Lit "products"];
     route_handler := fun _ req => validateProduct req (createProduct req) |};
  {| route_method := PUT;
     route_path := [Lit "api"; Lit "products"; Par "id"];
     route_handler := fun params req =>
       validateProduct req (updateProduct (req_param "id" params) req) |};
  {| route_method := DELETE;
     route_path := [Lit "api"; Lit "products"; Par "id"];
     route_handler := fun params _ => deleteProduct (req_param "id" params) |};
  {| route_method := GET;
     route_path := [Lit "api"; Lit "products"; Lit "analytics"; Lit "summary"];
     route_handler := fun _ _ => analyticsSummary |};
  {| route_method := GET;
     route_path := [Lit "api"; Lit "products"; Lit "low-stock"];
     route_handler := fun _ _ => lowStock |};
  {| route_method := GET;
     route_path := [Lit "api"; Lit "health"];
     route_handler := fun _ _ => health |}
].

(** The handler a request is dispatched to, if a route matches. *)
Fixpoint dispatch (rs : list Route) (req : Request) : option (M unit) :=
  match rs with
  | [] => None
  | r :: rs' =>
      if method_eqb (route_method r) (method req) then
        match match_path (route_path r) (path req) with
        | Some params => Some (route_handler r params req)
        | None => dispatch rs' req
        end
      else dispatch rs' req
  end.

(** The service on one request, from a table to the world it leaves. *)
Definition app (req : Request) (t : Table) : option ((unit + JsError) * World) :=
  match dispatch routes req with
  | Some handler => Some (handler (fresh t))
  | None => None
  end.

End Service.

(** ** Observations and the notions the properties are stated with *)

(** The statements a request sent to the store, oldest first. *)
Fixpoint issued_in (tr : list Event) : list Query :=
  match tr with
  | [] => []
  | Issued q :: tr' => q :: issued_in tr'
  | _ :: tr' => issued_in tr'
  end.

Definition issued (w : World) : list Query := issued_in (trace w).

(** No checkout and no release among the events. *)
Definition no_pool (evs : list Event) : bool :=
  forallb (fun e => match e with Connected | Released => false | _ => true end)
          evs.

(** The world a request leaves, when a route takes it. *)
Definition served (store : Store) (req : Request) (t : Table) : option World :=
  match app store req t with
  | Some (_, w) => Some w
  | None => None
  end.

(** The response a request gets from a handler of the service. *)
Definition reply (store : Store) (req : Request) (t : Table) : option Response :=
  match served store req t with
  | Some w => response w
  | None => None
  end.

Fixpoint member (k : string) (members : list (string * Field)) : option Field :=
  match members with
  | [] => None
  | (k', v) :: rest => if String.eqb k k' then Some v else member k rest
  end.



(** The status and message [handleDatabaseError] is to give for the code of
    an error. *)
Definition mapped_status (c : option string) : Z * string :=
  match c with
  | Some "23505" => (409, "Duplicate entry detected")
  | Some "23503" => (400, "Invalid foreign key reference")
  | Some "23514" => (400, "Check constraint violation")
  | _ => (500, "Internal server error")
  end.

Definition error_response (c : option string) : Response :=
  {| status := fst (mapped_status c);
     json := [("error", FStr (snd (mapped_status c)))] |}.

(** The identifier "parses fully as an integer": an optional sign and one or
    more decimal digits, nothing else. *)
Definition unsigned_part (l : list ascii) : list ascii :=
  match l with
  | c :: l' => if Ascii.eqb c "-" || Ascii.eqb c "+" then l' else l
  | [] => l
  end.

Definition is_negated (l : list ascii) : bool :=
  match l with
  | c :: _ => Ascii.eqb c "-"
  | [] => false
  end.

Definition parses_fully_as_integer (id : string) : bool :=
  match unsigned_part (chars id) with
  | [] => false
  | ds => forallb is_digit ds
  end.

Definition integer_of (id : string) : Z :=
  let v := dec_val (unsigned_part (chars id)) in
  if is_negated (chars id) then - v else v.

(** [s] occurs in [text], letter case apart. *)
Fixpoint starts_with (s text : list ascii) : bool :=
  match s, text with
  | [], _ => true
  | c :: s', x :: text' => Pg.same_char to_lower x c && starts_with s' text'
  | _ :: _, [] => false
  end.

Fixpoint occurs_in (s text : list ascii) : bool :=
  starts_with s text
  || match text with
     | [] => false
     | _ :: text' => occurs_in s text'
     end.

Definition contains (text s : string) : bool := occurs_in (chars s) (chars text).


(** The JSON body [{stock_code, description, unit_price}]. *)
Definition product_body (stock_code description : string) (unit_price : Js.value)
  : Js.value :=
  Js.VObj [("stock_code", Js.VStr stock_code);
           ("description", Js.VStr description);
           ("unit_price", unit_price)].

Definition request (m : Method) (p : list string)
    (q : list (string * Js.qvalue)) (b : Js.value) : Request :=
  {| method := m; path := p; query := q; body := b |}.

Definition no_body : Js.value := Js.VObj [].

(** Sample data. *)
Definition widget : Product := {|
  product_id := 1; stock_code := "A1"; description := "Widget";
  unit_price := Some (999 # 100); stock_quantity := 2; reorder_level := 5;
  is_active := true; updated_at := 0 |}.

Definition gadget : Product := {|
  product_id := 2; stock_code := "B2"; description := "Gadget";
  unit_price := Some (25 # 2); stock_quantity := 40; reorder_level := 10;
  is_active := true; updated_at := 0 |}.

Definition bolt : Product := {|
  product_id := 3; stock_code := "C3"; description := "Bolt";
  unit_price := None; stock_quantity := 0; reorder_level := 0;
  is_active := false; updated_at := 0 |}.

Definition stock : Table := [widget; gadget; bolt].

(** A store that is reachable and fails every statement with one error. *)
Definition failing (e : JsError) : Store := {|
  accepts := true;
  refusal := e;
  answer _ t := (Raise e, t)
|}.

(** Checkouts from and returns to the pool in a trace. *)
Definition checkouts (tr : list Event) : nat :=
  List.length (filter (fun e => match e with Connected => true | _ => false end) tr).

Definition releases (tr : list Event) : nat :=
  List.length (filter (fun e => match e with Released => true | _ => false end) tr).

(** Either the pool was not touched, or the trace starts with the checkout,
    ends with the release and has neither in between. *)
Definition released_once (tr : list Event) : bool :=
  match tr with
  | [] => true
  | Connected :: rest =>
      match rev rest with
      | Released :: mid => no_pool mid
      | _ => false
      end
  | _ => false
  end.




(** A failed health check. *)
Definition unhealthy (msg : string) : Response :=
  {| status := 500;
     json := [("success", FBool false); ("status", FStr "unhealthy");
              ("error", FStr msg)] |}.

Definition listing_reply (rows : list Row) : Response :=
  {| status := 200; json := [("success", FBool true); ("data", FRows rows)] |}.

(** The response of the default branch of [handleDatabaseError]. *)
Definition internal_error : Response :=
  {| status := 500; json := [("error", FStr "Internal server error")] |}.

(** A continuation that only answers: it leaves the trace as it is. *)
Definition quiet {A : Type} (k : A -> M unit) : Prop :=
  forall a w, trace (snd (k a w)) = trace w.

(** ** Further notions

    What the text of a statement takes from the request: the column and the
    direction of ORDER BY, the column of the lookup.  They are to come from
    the fixed lists of the source. *)
Definition interpolation_safe (q : Query) : bool :=
  match q with
  | SelectProducts _ column direction _ _ =>
      existsb (String.eqb column) validSort
      && existsb (String.eqb direction) ["ASC"; "DESC"]
  | SelectWhere field _ => existsb (String.eqb field) ["product_id"; "stock_code"]
  | _ => true
  end.

(** The statements a method may send: a GET reads, the others write each in
    its own way.  The low-stock statement is on no list: see
    [routes]. *)
Definition statement_fits (m : Method) (q : Query) : bool :=
  match m, q with
  | GET, (SelectProducts _ _ _ _ _ | SelectWhere _ _ | SelectSummary | SelectNow)
  | POST, InsertProduct _ _ _
  | PUT, UpdateProduct _ _ _ _
  | DELETE, DeleteProduct _ => true
  | _, _ => false
  end.

Definition bad_request (msg : string) : Response :=
  {| status := 400; json := [("error", FStr msg)] |}.

Definition not_found : Response :=
  {| status := 404; json := [("error", FStr "Product not found")] |}.

(** The response to a lookup, an update or a removal by the rows the store
    returns: 404 on none, else the first row under [data]. *)
Definition found (members : list (string * Field)) (rows : list Row) : Response :=
  match rows with
  | [] => not_found
  | r :: _ => {| status := 200;
                 json := (("success", FBool true) :: members ++ [("data", FRow r)])%list |}
  end.

(** Text of ASCII characters only.  On it the white space and the letter
    case of the model are those of JavaScript. *)
Definition ascii_text (s : string) : bool :=
  forallb (fun c => char_code c <? 128) (chars s).





(** The eight handlers the source registers, each with its middleware, on a
    request and a value of [:id]. *)
Definition handlers (store : Store) (req : Request) (id : string)
  : list (M unit) :=
  [ listProducts store req;
    getProduct store id;
    validateProduct req (createProduct store req);
    validateProduct req (updateProduct store id req);
    deleteProduct store id;
    analyticsSummary store;
    lowStock store;
    health store ].


(** The error of a conversion to a number that finds no primitive value. *)
Definition conversion_error : JsError :=
  TypeError "Cannot convert object to primitive value".

(** The requests on which the validation middleware throws: a POST or PUT
    with a stock code and a description, whose [unit_price] has no primitive
    value. *)
Definition validation_throws (req : Request) : bool :=
  match method req with
  | POST | PUT =>
      Js.truthy (Js.prop "stock_code" (body req))
      && Js.truthy (Js.prop "description" (body req))
      && Js.is_defined (Js.prop "unit_price" (body req))
      && negb (Js.has_primitive (Js.prop "unit_price" (body req)))
  | _ => false
  end.

(** The errors written to the console, oldest first. *)
Fixpoint logged_in (tr : list Event) : list JsError :=
  match tr with
  | [] => []
  | Logged e :: tr' => e :: logged_in tr'
  | _ :: tr' => logged_in tr'
  end.

Definition logged (w : World) : list JsError := logged_in (trace w).

(** The response of a health check that went through. *)
Definition healthy (time : Z) : Response :=
  {| status := 200;
     json := [("success", FBool true); ("status", FStr "healthy");
              ("timestamp", FTime time)] |}.

(** ** Tactics

    [run] unfolds a handler down to the operations on the world;
    [split_paths] then follows every path through it. *)

Ltac run :=
  unfold served, reply, app, issued, listProducts, getProduct, createProduct,
    updateProduct, deleteProduct, analyticsSummary, lowStock, health,
    validateProduct, with_client, try_catch_finally, try_catch,
    handleDatabaseError, pool_query, pool_connect, client_query,
    client_release, console_error, res_json, res_status_json, order, bind,
    ret, throw, emit, fresh;
  cbn [trace table response fst snd List.app issued_in].

Ltac split_path :=
  match goal with
  | |- context [accepts ?s] => destruct (accepts s)
  | |- context [param ?r ?n ?d] => destruct (param r n d)
  | |- context [Js.truthy ?v] => destruct (Js.truthy v)
  | |- context [Js.is_defined ?v] => destruct (Js.is_defined v)
  | |- context [Js.has_primitive ?v] => destruct (Js.has_primitive v)
  | |- context [Js.isNaN ?v] => destruct (Js.isNaN v)
  | |- context [Js.le ?x ?y] => destruct (Js.le x y)
  | |- context [answer ?s ?q ?t] =>
      let rows := fresh "rows" in
      let e := fresh "e" in
      let t' := fresh "t'" in
      destruct (answer s q t) as [[[|[] rows]|e] t']
  | |- context [has_code ?e ?c] => destruct (has_code e c)
  end.

Ltac split_paths :=
  repeat (split_path;
          cbn [trace table response fst snd List.app issued_in negb orb andb
               List.length Nat.eqb current_time_of first_row]).

Ltac quiet_reply :=
  intros ? ?; unfold res_json, res_status_json;
  repeat match goal with
         | |- context [if ?b then _ else _] => destruct b
         | |- context [response ?w] => destruct (response w)
         end; reflexivity.

Ltac first_reply :=
  let Hn := fresh "Hn" in
  intros ? ? Hn; unfold res_json, res_status_json;
  repeat match goal with
         | |- context [if ?b then _ else _] =>
             match type of b with bool => destruct b end
         end; rewrite Hn; reflexivity.

(** * Properties *)

(** ** The conversions at work *)

Example number_of_decimal : Js.StringToNumber "12.5" = Js.Fin (25 # 2).
Proof. reflexivity. Qed.

Example number_of_padded_hex : Js.StringToNumber " 0x1F " = Js.of_Z 31.
Proof. reflexivity. Qed.

Example number_of_exponent : Js.StringToNumber "-1e-2" = Js.Fin (-1 # 100).
Proof. reflexivity. Qed.

Example number_of_empty : Js.StringToNumber "" = Js.of_Z 0.
Proof. reflexivity. Qed.

Example number_of_infinity : Js.StringToNumber "-Infinity" = Js.Infinity true.
Proof. reflexivity. Qed.

Example not_numbers :
  map Js.StringToNumber ["12abc"; "."; "0x"; "1e"; "+.e1"; "-0x10"; "low-stock"]
  = [Js.NaN; Js.NaN; Js.NaN; Js.NaN; Js.NaN; Js.NaN; Js.NaN].
Proof. reflexivity. Qed.

Example parseInt_stops_at_the_point : Js.parseInt "12.5" = Js.of_Z 12.
Proof. reflexivity. Qed.

Example parseInt_reads_hex : Js.parseInt "  -0x1fz" = Js.of_Z (-31).
Proof. reflexivity. Qed.

Example parseInt_needs_a_digit :
  map Js.parseInt [".5"; ""; "Infinity"; "x1"] = [Js.NaN; Js.NaN; Js.NaN; Js.NaN].
Proof. reflexivity. Qed.

Example number_of_values :
  map Js.ToNumber [Js.VNull; Js.VBool true; Js.VArr []; Js.VArr [Js.VStr "5"];
                   Js.VUndefined; Js.VObj []; Js.VArr [Js.VStr "1"; Js.VStr "2"]]
  = [Js.of_Z 0; Js.of_Z 1; Js.of_Z 0; Js.of_Z 5; Js.NaN; Js.NaN; Js.NaN].
Proof. reflexivity. Qed.

Example string_of_repeated_parameter :
  Js.ToString (Js.QArr [Js.QStr "a"; Js.QStr "b"]) = "a,b".
Proof. reflexivity. Qed.

Example store_reads_integers :
  map Pg.int_in [" 12 "; "-7"; "+0012"; "12.5"; "0x10"; ""; "1e3"]
  = [Some 12; Some (-7); Some 12; None; None; None; None].
Proof. reflexivity. Qed.

Example ilike_wildcards :
  Pg.ilike "Widget" "%DG%" = true /\ Pg.ilike "Widget" "%_%" = true
  /\ Pg.ilike "Widget" "%\_%" = false /\ Pg.ilike "50%" "%\%" = true
  /\ Pg.ilike "Widget" "w_dget" = true /\ Pg.ilike "Widget" "%x%" = false.
Proof. repeat split. Qed.

Example route_parameter :
  match_path [Lit "api"; Lit "products"; Par "id"] ["API"; "Products"; "A1"]
  = Some [("id", "A1")]
  /\ match_path [Lit "api"; Lit "products"; Par "id"]
                ["api"; "products"; "analytics"; "summary"] = None.
Proof. split; reflexivity. Qed.


(** ** Characters, digits and white space *)

Lemma str_chars (s : string) : str (chars s) = s.
Proof. apply string_of_list_ascii_of_string. Qed.

Lemma chars_str (l : list ascii) : chars (str l) = l.
Proof. apply list_ascii_of_string_of_list_ascii. Qed.

Lemma digit_not (c d : ascii) :
  is_digit c = true -> is_digit d = false -> Ascii.eqb c d = false.
Proof.
  intros Hc Hd. destruct (Ascii.eqb_spec c d) as [->|]; congruence.
Qed.

Lemma digit_not_space (c : ascii) : is_digit c = true -> is_space c = false.
Proof.
  unfold is_digit, is_space. intros H.
  apply andb_true_iff in H as [H1 H2].
  apply Z.leb_le in H1. apply Z.leb_le in H2.
  apply orb_false_iff; split.
  - apply andb_false_iff. right. apply Z.leb_gt. lia.
  - apply Z.eqb_neq. lia.
Qed.

Lemma digit_not_in (c : ascii) (s : string) :
  is_digit c = true -> forallb (fun d => negb (is_digit d)) (chars s) = true ->
  Js.char_in c s = false.
Proof.
  intros Hc Hs. unfold Js.char_in.
  induction (chars s) as [|d l IH]; simpl in *; [reflexivity|].
  apply andb_true_iff in Hs as [Hd Hl].
  rewrite (digit_not c d Hc), IH; auto.
  now apply negb_true_iff.
Qed.

Lemma take_while_all (p : ascii -> bool) (l : list ascii) :
  forallb p l = true -> take_while p l = l.
Proof.
  induction l as [|c l IH]; simpl; [reflexivity|].
  intros H. apply andb_true_iff in H as [-> Hl]. now rewrite IH.
Qed.

Lemma drop_while_all (p : ascii -> bool) (l : list ascii) :
  forallb p l = true -> drop_while p l = [].
Proof.
  induction l as [|c l IH]; simpl; [reflexivity|].
  intros H. apply andb_true_iff in H as [-> Hl]. now apply IH.
Qed.

Lemma take_drop_while (p : ascii -> bool) (l : list ascii) :
  l = (take_while p l ++ drop_while p l)%list.
Proof.
  induction l as [|c l IH]; simpl; [reflexivity|].
  destruct (p c); simpl; [now rewrite <- IH | reflexivity].
Qed.

Lemma take_while_forallb (p : ascii -> bool) (l : list ascii) :
  forallb p (take_while p l) = true.
Proof.
  induction l as [|c l IH]; simpl; [reflexivity|].
  destruct (p c) eqn:E; simpl; [now rewrite E | reflexivity].
Qed.

Lemma drop_while_app (p : ascii -> bool) (l r : list ascii) :
  forallb p l = true -> drop_while p (l ++ r) = drop_while p r.
Proof.
  induction l as [|c l IH]; simpl; [reflexivity|].
  intros H. apply andb_true_iff in H as [-> Hl]. now apply IH.
Qed.

Lemma drop_while_head (p : ascii -> bool) (l r : list ascii) :
  l <> [] -> forallb (fun c => negb (p c)) l = true ->
  drop_while p (l ++ r) = (l ++ r)%list.
Proof.
  destruct l as [|c l]; [congruence|]. simpl. intros _ H.
  apply andb_true_iff in H as [Hc _]. apply negb_true_iff in Hc.
  now rewrite Hc.
Qed.

Lemma drop_while_stops (p : ascii -> bool) (l : list ascii) (c : ascii)
    (l' : list ascii) :
  drop_while p l = c :: l' -> p c = false.
Proof.
  induction l as [|x l IH]; simpl; [discriminate|].
  destruct (p x) eqn:Ex; [exact IH|].
  intros E. injection E as -> _. exact Ex.
Qed.

Lemma forallb_rev (p : ascii -> bool) (l : list ascii) :
  forallb p (rev l) = forallb p l.
Proof.
  induction l as [|c l IH]; simpl; [reflexivity|].
  rewrite forallb_app, IH. simpl. rewrite andb_true_r. apply andb_comm.
Qed.

(** White space around a core without any is trimmed away. *)
Lemma trim_core (ws1 core ws2 : list ascii) :
  forallb is_space ws1 = true -> forallb is_space ws2 = true ->
  core <> [] -> forallb (fun c => negb (is_space c)) core = true ->
  trim (ws1 ++ core ++ ws2) = core.
Proof.
  intros H1 H2 Hne Hcore. unfold trim.
  rewrite drop_while_app by assumption.
  rewrite drop_while_head by assumption.
  rewrite rev_app_distr.
  rewrite drop_while_app by now rewrite forallb_rev.
  rewrite <- (app_nil_r (rev core)).
  rewrite drop_while_head.
  - rewrite app_nil_r. apply rev_involutive.
  - intros E. apply Hne. rewrite <- (rev_involutive core), E. reflexivity.
  - now rewrite forallb_rev.
Qed.

Lemma digits_not_space (ds : list ascii) :
  forallb is_digit ds = true ->
  forallb (fun c => negb (is_space c)) ds = true.
Proof.
  induction ds as [|c ds IH]; simpl; [reflexivity|].
  intros H. apply andb_true_iff in H as [Hc Hds].
  now rewrite (digit_not_space c Hc), IH.
Qed.

(** ** Integers as JavaScript reads them *)

Lemma Qred_inject_Z (z : Z) : Qred (inject_Z z) = inject_Z z.
Proof. apply Qcanon.Qred_identity. simpl. apply Z.gcd_1_r. Qed.

Lemma neg_of_Z (z : Z) : Js.neg (Js.of_Z z) = Js.of_Z (- z).
Proof.
  unfold Js.neg, Js.of_Z.
  change (- inject_Z z)%Q with (inject_Z (- z)).
  now rewrite Qred_inject_Z.
Qed.

Lemma to_Z_of_Z (z : Z) : Js.to_Z (Js.of_Z z) = Some z.
Proof. unfold Js.to_Z, Js.of_Z. now rewrite Qred_inject_Z. Qed.

(** A run of digits is the decimal literal of its value. *)
Lemma unsigned_digits (ds : list ascii) :
  ds <> [] -> forallb is_digit ds = true ->
  Js.StrUnsignedDecimalLiteral ds = Js.of_Z (dec_val ds).
Proof.
  intros Hne Hds. unfold Js.StrUnsignedDecimalLiteral.
  destruct (String.eqb (str ds) "Infinity") eqn:E.
  - apply String.eqb_eq in E.
    assert (ds = chars "Infinity") as -> by now rewrite <- E, chars_str.
    discriminate.
  - rewrite take_while_all, drop_while_all by assumption.
    destruct ds as [|c ds]; [congruence|].
    cbn [Js.ExponentPart List.length app]. rewrite app_nil_r.
    unfold Js.scale10. cbn [Z.of_nat Z.sub Z.leb Z.compare Z.opp Z.add].
    change (10 ^ 0) with 1. now rewrite Z.mul_1_r.
Qed.

Lemma numeric_digits (ds : list ascii) :
  ds <> [] -> forallb is_digit ds = true ->
  Js.StrNumericLiteral ds = Js.of_Z (dec_val ds).
Proof.
  intros Hne Hds.
  assert (Hdec : Js.StrDecimalLiteral ds = Js.of_Z (dec_val ds)).
  { destruct ds as [|c ds]; [congruence|]. unfold Js.StrDecimalLiteral.
    pose proof Hds as Hc. simpl in Hc. apply andb_true_iff in Hc as [Hc _].
    rewrite (digit_not c "-" Hc), (digit_not c "+" Hc) by reflexivity.
    now apply unsigned_digits. }
  destruct ds as [|c [|d ds]]; [congruence| exact Hdec |].
  unfold Js.StrNumericLiteral.
  assert (Hd : is_digit d = true).
  { simpl in Hds. apply andb_true_iff in Hds as [_ Hds].
    now apply andb_true_iff in Hds as [Hd _]. }
  rewrite !(digit_not_in d) by (assumption || reflexivity).
  rewrite !andb_false_r. exact Hdec.
Qed.

Lemma numeric_signed_digits (sign : ascii) (ds : list ascii) :
  sign = "-"%char \/ sign = "+"%char ->
  ds <> [] -> forallb is_digit ds = true ->
  Js.StrNumericLiteral (sign :: ds)
  = Js.of_Z (if Ascii.eqb sign "-" then - dec_val ds else dec_val ds).
Proof.
  intros Hs Hne Hds.
  assert (Hdec : Js.StrDecimalLiteral (sign :: ds)
                 = Js.of_Z (if Ascii.eqb sign "-" then - dec_val ds
                            else dec_val ds)).
  { unfold Js.StrDecimalLiteral.
    rewrite (unsigned_digits ds Hne Hds).
    destruct Hs as [-> | ->]; cbn [Ascii.eqb Bool.eqb]; [apply neg_of_Z | reflexivity]. }
  destruct ds as [|d ds]; [congruence|].
  unfold Js.StrNumericLiteral.
  replace (Ascii.eqb sign "0") with false
    by (destruct Hs as [-> | ->]; reflexivity).
  exact Hdec.
Qed.

Lemma radix_val_digit (c : ascii) :
  is_digit c = true -> radix_val 10 c = Some (digit_val c).
Proof.
  unfold is_digit, radix_val, hex_val, digit_val. intros H. rewrite H.
  apply andb_true_iff in H as [H1 H2]. apply Z.leb_le in H2.
  replace (char_code c - 48 <? 10) with true; [reflexivity|].
  symmetry. apply Z.ltb_lt. lia.
Qed.

Lemma radix_prefix_digits (ds : list ascii) :
  forallb is_digit ds = true -> Js.radix_prefix 10 ds = map digit_val ds.
Proof.
  induction ds as [|c ds IH]; simpl; [reflexivity|].
  intros H. apply andb_true_iff in H as [Hc Hds].
  now rewrite (radix_val_digit c Hc), IH.
Qed.

Lemma parseInt_digits_decimal (negative : bool) (ds : list ascii) :
  ds <> [] -> forallb is_digit ds = true ->
  Js.parseInt_digits negative ds
  = Js.of_Z (if negative then - dec_val ds else dec_val ds).
Proof.
  intros Hne Hds. unfold Js.parseInt_digits.
  assert (Hradix :
    match ds with
    | c :: d :: l' =>
        if Ascii.eqb c "0" && Js.char_in d "xX" then (16, l') else (10, ds)
    | _ => (10, ds)
    end = (10, ds)).
  { destruct ds as [|c [|d l']]; try reflexivity.
    simpl in Hds. apply andb_true_iff in Hds as [_ Hds].
    apply andb_true_iff in Hds as [Hd _].
    rewrite (digit_not_in d "xX" Hd) by reflexivity.
    now rewrite andb_false_r. }
  rewrite Hradix, radix_prefix_digits by assumption.
  destruct ds as [|c ds]; [congruence|]. reflexivity.
Qed.

(** The three shapes of an identifier that is an integer. *)
Lemma integer_shape (id : string) :
  parses_fully_as_integer id = true ->
  exists ds, ds <> [] /\ forallb is_digit ds = true /\
    ((chars id = ds /\ integer_of id = dec_val ds)
     \/ (chars id = "-"%char :: ds /\ integer_of id = - dec_val ds)
     \/ (chars id = "+"%char :: ds /\ integer_of id = dec_val ds)).
Proof.
  unfold parses_fully_as_integer, integer_of, unsigned_part, is_negated.
  destruct (chars id) as [|c l] eqn:E; [discriminate|].
  destruct (Ascii.eqb_spec c "-") as [-> | Hm].
  - cbn [orb]. intros H. exists l. destruct l; [discriminate|].
    repeat split; auto; congruence.
  - destruct (Ascii.eqb_spec c "+") as [-> | Hp].
    + cbn [orb]. intros H. exists l. destruct l; [discriminate|].
      repeat split; auto; congruence.
    + cbn [orb]. intros H. exists (c :: l). repeat split; auto; congruence.
Qed.

Lemma trim_clean (core : list ascii) :
  core <> [] -> forallb (fun c => negb (is_space c)) core = true ->
  trim core = core.
Proof.
  intros Hne H. pose proof (trim_core [] core [] eq_refl eq_refl Hne H) as T.
  simpl in T. now rewrite app_nil_r in T.
Qed.

(** An identifier that is an integer is numeric for [Number] and is read
    by [parseInt] as that integer. *)
Lemma StringToNumber_integer (id : string) :
  parses_fully_as_integer id = true ->
  Js.StringToNumber id = Js.of_Z (integer_of id).
Proof.
  intros H. destruct (integer_shape id H) as (ds & Hne & Hds & Hshape).
  unfold Js.StringToNumber.
  assert (Hnsp := digits_not_space ds Hds).
  destruct Hshape as [[E ->] | [[E ->] | [E ->]]]; rewrite E.
  - rewrite trim_clean by assumption. now apply numeric_digits.
  - rewrite trim_clean by (discriminate || (simpl; now rewrite Hnsp)).
    now rewrite numeric_signed_digits by auto.
  - rewrite trim_clean by (discriminate || (simpl; now rewrite Hnsp)).
    now rewrite numeric_signed_digits by auto.
Qed.

Lemma parseInt_integer (id : string) :
  parses_fully_as_integer id = true ->
  Js.parseInt id = Js.of_Z (integer_of id).
Proof.
  intros H. destruct (integer_shape id H) as (ds & Hne & Hds & Hshape).
  unfold Js.parseInt, trim_start.
  assert (Hnsp := digits_not_space ds Hds).
  destruct Hshape as [[E ->] | [[E ->] | [E ->]]]; rewrite E.
  - rewrite <- (app_nil_r ds) at 1.
    rewrite drop_while_head, app_nil_r by assumption.
    destruct ds as [|c ds'] eqn:Eds; [congruence|].
    assert (Hc : is_digit c = true)
      by (simpl in Hds; now apply andb_true_iff in Hds as [Hc _]).
    rewrite (digit_not c "-" Hc), (digit_not c "+" Hc) by reflexivity.
    now rewrite parseInt_digits_decimal.
  - cbn [drop_while]. change (is_space "-") with false. cbv iota.
    cbn [Ascii.eqb Bool.eqb]. now rewrite parseInt_digits_decimal.
  - cbn [drop_while]. change (is_space "+") with false. cbv iota.
    cbn [Ascii.eqb Bool.eqb]. now rewrite parseInt_digits_decimal.
Qed.

(** ** Dispatch *)

Lemma dispatch_cases (store : Store) (req : Request) (h : M unit) :
  dispatch (routes store) req = Some h ->
  h = listProducts store req
  \/ (exists id, h = getProduct store id)
  \/ h = validateProduct req (createProduct store req)
  \/ (exists id, h = validateProduct req (updateProduct store id req))
  \/ (exists id, h = deleteProduct store id)
  \/ h = analyticsSummary store
  \/ h = lowStock store
  \/ h = health store.
Proof.
  unfold routes, dispatch.
  cbn [route_method route_path route_handler].
  repeat match goal with
         | |- context [if ?b then _ else _] => destruct b
         | |- context [match match_path ?p ?x with _ => _ end] =>
             destruct (match_path p x)
         end;
    intros H; try discriminate; injection H as <-; eauto 12.
Qed.

(** ** Orders and sorted lists *)

Section OrderFacts.
Context {A : Type} (le : A -> A -> bool).
Hypothesis le_total : forall a b, le a b = true \/ le b a = true.

Lemma insert_permutation (x : A) (l : list A) :
  Permutation (Pg.insert le x l) (x :: l).
Proof.
  induction l as [|y l IH]; simpl; [reflexivity|].
  destruct (le x y); [reflexivity|].
  rewrite IH. apply perm_swap.
Qed.

Lemma sort_permutation (l : list A) : Permutation (Pg.sort le l) l.
Proof.
  induction l as [|x l IH]; simpl; [reflexivity|].
  unfold Pg.sort in *. simpl. rewrite insert_permutation. now constructor.
Qed.

Lemma insert_locally_sorted (x : A) (l : list A) :
  Sorted (fun a b => le a b = true) l ->
  Sorted (fun a b => le a b = true) (Pg.insert le x l).
Proof.
  induction 1 as [|y l Hs IH Hy]; simpl.
  - repeat constructor.
  - destruct (le x y) eqn:Exy.
    + constructor; [now constructor|]. now constructor.
    + constructor; [exact IH|].
      destruct (le_total x y) as [H | Hyx]; [congruence|].
      destruct l as [|z l]; simpl.
      * now constructor.
      * destruct (le x z); constructor; [exact Hyx|].
        now inversion Hy.
Qed.

Lemma sort_locally_sorted (l : list A) :
  Sorted (fun a b => le a b = true) (Pg.sort le l).
Proof.
  induction l as [|x l IH]; simpl; [constructor|].
  now apply insert_locally_sorted.
Qed.
End OrderFacts.

Section SortedSlices.
Context {A : Type} (R : A -> A -> Prop).



End SortedSlices.


Lemma price_le_total (a b : option Q) :
  Pg.price_le a b = true \/ Pg.price_le b a = true.
Proof.
  destruct a as [x|], b as [y|]; simpl; auto.
  destruct (Qle_bool x y) eqn:E; [now left|]. right.
  apply Qle_bool_iff. apply Qlt_le_weak. apply Qnot_le_lt.
  intros H. apply Qle_bool_iff in H. congruence.
Qed.

(** Every ORDER BY of the service compares any two products. *)
Lemma ordering_is_total (column direction : string)
    (le : Product -> Product -> bool) :
  Pg.ordering column direction = Pg.Ok le ->
  forall a b, le a b = true \/ le b a = true.
Proof.
  unfold Pg.ordering.
  destruct (Pg.column_le column) as [le0|] eqn:Ecol; [|discriminate].
  assert (H0 : forall a b, le0 a b = true \/ le0 b a = true).
  { unfold Pg.column_le in Ecol.
    destruct (String.eqb column "product_id").
    { injection Ecol as <-. intros a b.
      destruct (Z.leb_spec (product_id a) (product_id b)); [now left|].
      right. apply Z.leb_le. lia. }
    destruct (String.eqb column "stock_code").
    { injection Ecol as <-. intros a b. apply String.leb_total. }
    destruct (String.eqb column "description").
    { injection Ecol as <-. intros a b. apply String.leb_total. }
    destruct (String.eqb column "unit_price"); [|discriminate].
    injection Ecol as <-. intros a b. apply price_le_total. }
  unfold Pg.directed.
  destruct (String.eqb direction "ASC"); [intros [= <-]; exact H0|].
  destruct (String.eqb direction "DESC"); [|discriminate].
  intros [= <-] a b. destruct (H0 a b); auto.
Qed.

(** The selection with ties in the order of the table is one the statement
    may make. *)
Lemma selected_selects (pattern : option string) (column direction : string)
    (le : Product -> Product -> bool) (t : Table) :
  Pg.ordering column direction = Pg.Ok le ->
  Pg.selects pattern le t (Pg.selected pattern le t).
Proof.
  intros Hle. split.
  - apply sort_permutation.
  - apply sort_locally_sorted. exact (ordering_is_total _ _ le Hle).
Qed.

(** ** The sample store *)

Lemma sample_conforms : Pg.conforms Pg.sample.
Proof.
  constructor; try reflexivity.
  { intros pattern column direction limit offset t.
    unfold Pg.sample. cbn [answer]. unfold Pg.select_products.
    destruct (Pg.ordering column direction) as [le|c] eqn:Hle; [|reflexivity].
    exists (Pg.selected pattern le t).
    split; [exact (selected_selects pattern _ _ le t Hle) | reflexivity]. }
  intros sc d up id t c H. unfold Pg.sample. cbn [answer]. rewrite H.
  exists c. split; [reflexivity|].
  unfold Pg.bind_int in H. destruct (Pg.int_in id) as [z|].
  - unfold Pg.ranged in H. destruct (Pg.in_range 32 z); [discriminate|].
    injection H as <-. now right.
  - injection H as <-. now left.
Qed.

(** ** C1: the low-stock listing *)

Section SortFacts.
Context {A : Type} (key : A -> Z).

Lemma insert_perm (x : A) (l : list A) :
  Permutation (Pg.insert (fun a b => key a <=? key b) x l) (x :: l).
Proof.
  induction l as [|y l IH]; simpl; [reflexivity|].
  destruct (key x <=? key y); [reflexivity|].
  rewrite IH. apply perm_swap.
Qed.

Lemma sort_perm (l : list A) :
  Permutation (Pg.sort (fun a b => key a <=? key b) l) l.
Proof.
  induction l as [|x l IH]; simpl; [reflexivity|].
  unfold Pg.sort in *. simpl. rewrite insert_perm. now constructor.
Qed.

Lemma insert_sorted (x : A) (l : list A) :
  StronglySorted (fun a b => key a <= key b) l ->
  StronglySorted (fun a b => key a <= key b)
                 (Pg.insert (fun a b => key a <=? key b) x l).
Proof.
  induction 1 as [|y l Hs IH Hy]; simpl.
  - repeat constructor.
  - destruct (Z.leb_spec (key x) (key y)) as [Hxy | Hyx].
    + constructor; [now constructor|].
      constructor; [exact Hxy|].
      eapply Forall_impl; [|exact Hy]. intros z Hz. simpl in Hz. lia.
    + constructor; [exact IH|].
      apply Forall_forall. intros z Hz.
      apply (Permutation_in _ (insert_perm x l)) in Hz.
      destruct Hz as [<- | Hz]; [lia|].
      rewrite Forall_forall in Hy. now apply Hy.
Qed.

Lemma sort_sorted (l : list A) :
  StronglySorted (fun a b => key a <= key b)
                 (Pg.sort (fun a b => key a <=? key b) l).
Proof.
  induction l as [|x l IH]; simpl; [constructor|].
  now apply insert_sorted.
Qed.
End SortFacts.

(** What the low-stock statement selects: the products at or below their
    reorder level, each as often as the table has it, by ascending stock
    quantity. *)
Lemma low_stock_selection (t : Table) :
  exists l,
    Pg.select_low_stock t = Rows (map Pg.low_stock_row l)
    /\ Permutation l (filter Pg.is_low_stock t)
    /\ StronglySorted (fun a b => stock_quantity a <= stock_quantity b) l
    /\ (forall p, In p l <-> In p t /\ stock_quantity p <= reorder_level p).
Proof.
  eexists. split; [reflexivity|]. split; [apply sort_perm|].
  split; [apply sort_sorted|].
  intros p. split.
  - intros H. apply (Permutation_in _ (sort_perm _ _)) in H.
    apply filter_In in H as [Hin Hlow]. split; [exact Hin|].
    now apply Z.leb_le.
  - intros [Hin Hlow].
    apply (Permutation_in _ (Permutation_sym (sort_perm _ _))).
    apply filter_In. split; [exact Hin|]. now apply Z.leb_le.
Qed.

(** The low-stock handler, were it run, answers with that selection. *)
Lemma lowStock_reply (store : Store) (t : Table) :
  Pg.conforms store -> accepts store = true ->
  exists rows,
    Pg.select_low_stock t = Rows rows
    /\ response (snd (lowStock store (fresh t))) = Some (listing_reply rows).
Proof.
  intros Hpg Hacc. eexists. split; [reflexivity|].
  run. rewrite Hacc. cbn [trace table response fst snd List.app].
  now rewrite (Pg.conforms_low_stock store Hpg).
Qed.

(** C1, failing input.  The route [/api/products/:id] is registered before
    [/api/products/low-stock] and matches its path with [id] bound to
    "low-stock": a GET of /api/products/low-stock runs the single-item
    lookup, which searches the stock code "low-stock" and answers 404 on a
    table with two products at or below their reorder level.  The low-stock
    handler is never run; [/api/products/analytics/summary], one segment
    longer, is not shadowed. *)
Theorem low_stock_request_is_taken_by_id_route :
  (forall store q b,
     dispatch (routes store) (request GET ["api"; "products"; "low-stock"] q b)
     = Some (getProduct store "low-stock"))
  /\ searchField "low-stock" = "stock_code"
  /\ reply Pg.sample
           (request GET ["api"; "products"; "low-stock"] [] no_body) stock
     = Some {| status := 404; json := [("error", FStr "Product not found")] |}
  /\ response (snd (lowStock Pg.sample (fresh stock)))
     = Some (listing_reply [Pg.low_stock_row bolt; Pg.low_stock_row widget])
  /\ (forall store q b,
        dispatch (routes store)
                 (request GET ["api"; "products"; "analytics"; "summary"] q b)
        = Some (analyticsSummary store)).
Proof. repeat split. Qed.

(** ** C2: which column the single-item lookup searches *)

Lemma getProduct_issued (store : Store) (id : string) (t : Table) :
  accepts store = true ->
  issued (snd (getProduct store id (fresh t)))
  = [SelectWhere (searchField id) (searchParam id)].
Proof.
  intros Hacc. run. rewrite Hacc. cbn [trace table response fst snd List.app].
  destruct (answer store _ t) as [[rows|e] t'].
  - destruct rows; reflexivity.
  - cbn. destruct (has_code e "23505"), (has_code e "23503"),
      (has_code e "23514"); reflexivity.
Qed.

(** On a reachable store the lookup of [id] sends one statement.  It
    searches [product_id], with [parseInt(id)] as the value, exactly when
    [Number(id)] is not NaN, and [stock_code], with [id] itself, otherwise.
    Every [id] that parses fully as an integer (one a double holds exactly)
    is searched as that [product_id]; "12abc" is searched as a
    [stock_code]. *)
Lemma getProduct_lookup (store : Store) (id : string) (t : Table) :
  accepts store = true ->
  let sent := issued (snd (getProduct store id (fresh t))) in
  (Js.is_nan (Js.StringToNumber id) = false ->
   sent = [SelectWhere "product_id" (Js.VNum (Js.parseInt id))])
  /\ (Js.is_nan (Js.StringToNumber id) = true ->
      sent = [SelectWhere "stock_code" (Js.VStr id)])
  /\ (parses_fully_as_integer id = true -> Z.abs (integer_of id) <= 2 ^ 53 ->
      sent = [SelectWhere "product_id" (Js.VNum (Js.of_Z (integer_of id)))])
  /\ searchField "12abc" = "stock_code"
  /\ searchParam "12abc" = Js.VStr "12abc".
Proof.
  intros Hacc sent. subst sent. rewrite (getProduct_issued store id t Hacc).
  unfold searchField, searchParam, isNumeric, Js.isNaN.
  cbn [Js.ToNumber].
  repeat split.
  - now intros ->.
  - now intros ->.
  - intros H _. rewrite (StringToNumber_integer id H), (parseInt_integer id H).
    reflexivity.
Qed.

(** C2, failing input.  The identifier "12.5" is numeric but does not parse
    fully as an integer; the specification has it looked up by [stock_code].  The
    handler tests it with [!isNaN(id)], which holds, and converts it with
    [parseInt]: the statement sent searches [product_id] for 12, and on a
    table without such a product the answer is 404 even if a product has
    the stock code "12.5".  So it is with "1e1" (product 1), "0x10"
    (product 16) and " 7" (product 7). *)
Theorem decimal_id_is_looked_up_by_product_id :
  parses_fully_as_integer "12.5" = false
  /\ (forall store t,
        accepts store = true ->
        issued (snd (getProduct store "12.5" (fresh t)))
        = [SelectWhere "product_id" (Js.VNum (Js.of_Z 12))])
  /\ searchField "12.5" <> "stock_code"
  /\ map (fun id => (parses_fully_as_integer id, searchField id, searchParam id))
         ["1e1"; "0x10"; " 7"]
     = [(false, "product_id", Js.VNum (Js.of_Z 1));
        (false, "product_id", Js.VNum (Js.of_Z 16));
        (false, "product_id", Js.VNum (Js.of_Z 7))].
Proof.
  repeat split; try discriminate.
  intros store t Hacc. now rewrite getProduct_issued.
Qed.

Lemma decimal_id_is_looked_up_by_product_id_witness :
  issued (snd (getProduct Pg.sample "12.5" (fresh stock)))
  = [SelectWhere "product_id" (Js.VNum (Js.of_Z 12))].
Proof.
  destruct decimal_id_is_looked_up_by_product_id as (_ & H & _).
  apply (H Pg.sample stock). reflexivity.
Defined.

Lemma getProduct_lookup_witness :
  issued (snd (getProduct Pg.sample "42" (fresh stock)))
  = [SelectWhere "product_id" (Js.VNum (Js.of_Z 42))]
  /\ issued (snd (getProduct Pg.sample "A1" (fresh stock)))
     = [SelectWhere "stock_code" (Js.VStr "A1")].
Proof.
  split.
  - destruct (getProduct_lookup Pg.sample "42" stock eq_refl)
      as (_ & _ & H & _).
    apply H; [reflexivity | discriminate].
  - destruct (getProduct_lookup Pg.sample "A1" stock eq_refl)
      as (_ & H & _).
    apply H. reflexivity.
Defined.

(** ** C3: validation before the store *)

(** A request validation turns down gets the 400 and nothing else happens:
    no statement is sent and the table is as it was. *)
Lemma validation_rejects (req : Request) (next : M unit) (t : Table) :
  Js.truthy (Js.prop "stock_code" (body req)) = false
  \/ Js.truthy (Js.prop "description" (body req)) = false
  \/ (Js.is_defined (Js.prop "unit_price" (body req)) = true
      /\ Js.has_primitive (Js.prop "unit_price" (body req)) = true
      /\ (Js.isNaN (Js.prop "unit_price" (body req)) = true
          \/ Js.le (Js.ToNumber (Js.prop "unit_price" (body req))) (Js.of_Z 0)
             = true)) ->
  let w := snd (validateProduct req next (fresh t)) in
  (exists msg, response w = Some {| status := 400;
                                    json := [("error", FStr msg)] |})
  /\ trace w = [] /\ table w = t.
Proof.
  intros H. unfold validateProduct.
  destruct (Js.truthy (Js.prop "stock_code" (body req)));
    [|cbn; eauto].
  destruct (Js.truthy (Js.prop "description" (body req)));
    [|cbn; eauto].
  destruct H as [H | [H | (Hd & Hprim & Hp)]]; try discriminate.
  rewrite Hd, Hprim. cbn [negb orb andb].
  destruct Hp as [-> | ->]; rewrite ?orb_true_r; cbn; eauto.
Qed.

(** A body of two non-empty strings whose price is absent or a positive
    number passes validation. *)
Lemma validation_passes (m : Method) (p : list string)
    (q : list (string * Js.qvalue)) (sc d : string) (price : Js.value)
    (next : M unit) :
  sc <> "" -> d <> "" ->
  price = Js.VUndefined
  \/ (exists n, price = Js.VNum (Js.Fin n) /\ Qle_bool n 0 = false) ->
  validateProduct (request m p q (product_body sc d price)) next = next.
Proof.
  intros Hsc Hd Hp. unfold validateProduct, request, product_body.
  cbn [body Js.prop Js.lookup String.eqb Ascii.eqb Bool.eqb Js.truthy].
  destruct (String.eqb_spec sc "") as [|Nsc]; [contradiction|].
  destruct (String.eqb_spec d "") as [|Nd]; [contradiction|].
  cbn [negb orb].
  destruct Hp as [-> | (n & -> & Hn)]; [reflexivity|].
  unfold Js.isNaN. cbn [Js.is_defined Js.ToNumber Js.is_nan Js.le Js.of_Z andb orb].
  change (inject_Z 0) with 0%Q. now rewrite Hn.
Qed.

Lemma create_route (store : Store) (q : list (string * Js.qvalue))
    (b : Js.value) :
  dispatch (routes store) (request POST ["api"; "products"] q b)
  = Some (validateProduct (request POST ["api"; "products"] q b)
            (createProduct store (request POST ["api"; "products"] q b))).
Proof. reflexivity. Qed.

(** C3, failing input.  A body whose [unit_price] is the boolean [true] is
    present and is not a number, yet it passes validation ([true] is 1 for
    [isNaN] and for the comparison): the request reaches the store with
    [true] as the price.  So do the string "5" and the array [[5]]. *)
Theorem boolean_price_passes_validation :
  (forall m p q next,
     validateProduct (request m p q (product_body "A1" "Widget" (Js.VBool true)))
                     next = next)
  /\ (forall store t,
        accepts store = true ->
        exists w,
          served store
                 (request POST ["api"; "products"] []
                          (product_body "A1" "Widget" (Js.VBool true))) t
          = Some w
          /\ issued w = [InsertProduct (Js.VStr "A1") (Js.VStr "Widget")
                                       (Js.VBool true)])
  /\ (forall m p q next,
        validateProduct (request m p q (product_body "A1" "Widget" (Js.VStr "5")))
                        next = next)
  /\ (forall m p q next,
        validateProduct
          (request m p q
                   (product_body "A1" "Widget"
                                 (Js.VArr [Js.VNum (Js.of_Z 5)])))
          next = next).
Proof.
  repeat split.
  intros store t Hacc.
  unfold served, app. rewrite create_route.
  change (validateProduct
            (request POST ["api"; "products"] []
                     (product_body "A1" "Widget" (Js.VBool true)))
            (createProduct store
               (request POST ["api"; "products"] []
                        (product_body "A1" "Widget" (Js.VBool true)))))
    with (createProduct store
            (request POST ["api"; "products"] []
                     (product_body "A1" "Widget" (Js.VBool true)))).
  run. rewrite Hacc. cbn [trace table response fst snd List.app].
  destruct (answer store _ t) as [[rows|e] t'].
  - eexists. split; reflexivity.
  - destruct (has_code e "23505") eqn:E1, (has_code e "23503") eqn:E2,
      (has_code e "23514") eqn:E3;
      cbn; rewrite ?E1, ?E2, ?E3; eexists; split; reflexivity.
Qed.

Lemma boolean_price_passes_validation_witness :
  exists w,
    served Pg.sample
           (request POST ["api"; "products"] []
                    (product_body "A1" "Widget" (Js.VBool true))) stock
    = Some w
    /\ issued w = [InsertProduct (Js.VStr "A1") (Js.VStr "Widget")
                                 (Js.VBool true)].
Proof.
  destruct boolean_price_passes_validation as (_ & H & _).
  apply (H Pg.sample stock). reflexivity.
Defined.

(** ** C4: the column and the direction of the sort *)

(** The statement a list request with a string [sort_order] sends. *)
Lemma list_order_by (store : Store) (req : Request) (t : Table) (so : string) :
  accepts store = true ->
  param req "sort_order" (Js.QStr "ASC") = Js.QStr so ->
  issued (snd (listProducts store req (fresh t)))
  = [SelectProducts (pattern (param req "search" (Js.QStr "")))
       (sortColumn (param req "sort_by" (Js.QStr "stock_code")))
       (if String.eqb (toUpperCase so) "DESC" then "DESC" else "ASC")
       (limit req) (Js.VNum (offset req))].
Proof.
  intros Hacc Hso. run. rewrite Hacc, Hso.
  cbn [trace table response fst snd List.app].
  destruct (answer store _ t) as [[rows|e] t'].
  - reflexivity.
  - cbn. destruct (has_code e "23505"), (has_code e "23503"),
      (has_code e "23514"); reflexivity.
Qed.

(** The column is [sort_by] when it is on the list and [stock_code] for any
    other value, whatever its type. *)
Lemma sortColumn_allowed (sort_by : Js.qvalue) :
  (forall s, sort_by = Js.QStr s -> In s validSort -> sortColumn sort_by = s)
  /\ ((forall s, sort_by = Js.QStr s -> ~ In s validSort) ->
      sortColumn sort_by = "stock_code").
Proof.
  split.
  - intros s -> Hin. unfold sortColumn.
    replace (existsb (String.eqb s) validSort) with true; [reflexivity|].
    symmetry. apply existsb_exists. exists s. split; [assumption|].
    apply String.eqb_refl.
  - intros H. destruct sort_by as [s| |]; try reflexivity.
    unfold sortColumn.
    destruct (existsb (String.eqb s) validSort) eqn:E; [|reflexivity].
    apply existsb_exists in E as (x & Hin & Hx).
    apply String.eqb_eq in Hx as ->. now destruct (H x eq_refl).
Qed.

(** C4, failing input.  A repeated [sort_order] parameter reaches the
    handler as an array, which has no [toUpperCase]: the handler throws
    before any statement is sent and the response is the 500 of the error
    handler, where the direction was to fall back to ASC. *)
Theorem repeated_sort_order_is_internal_error :
  (forall store t,
     issued (snd (listProducts store
                    (request GET ["api"; "products"]
                       [("sort_order", Js.QArr [Js.QStr "asc"; Js.QStr "desc"])]
                       no_body)
                    (fresh t))) = [])
  /\ reply Pg.sample
           (request GET ["api"; "products"]
              [("sort_order", Js.QArr [Js.QStr "asc"; Js.QStr "desc"])]
              no_body)
           stock
     = Some internal_error.
Proof.
  split; [|reflexivity].
  intros store t. run. destruct (accepts store); reflexivity.
Qed.

(** ** C5: store errors and status codes *)

Lemma mapped_status_other (c : string) :
  c <> "23505" -> c <> "23503" -> c <> "23514" ->
  mapped_status (Some c) = (500, "Internal server error").
Proof.
  intros N1 N2 N3. unfold mapped_status.
  repeat match goal with
         | |- context [match ?x with _ => _ end] => destruct x
         end;
    first [ reflexivity | congruence ].
Qed.

(** [handleDatabaseError] answers by the table of the codes. *)
Lemma handleDatabaseError_reply (e : JsError) (w : World) :
  response w = None ->
  response (snd (handleDatabaseError e w)) = Some (error_response (code e)).
Proof.
  intros Hw. unfold error_response. run. rewrite Hw. unfold has_code.
  destruct (code e) as [c|]; [|reflexivity].
  destruct (String.eqb_spec c "23505") as [-> | N1]; [reflexivity|].
  destruct (String.eqb_spec c "23503") as [-> | N2]; [reflexivity|].
  destruct (String.eqb_spec c "23514") as [-> | N3]; [reflexivity|].
  now rewrite (mapped_status_other c N1 N2 N3).
Qed.

Lemma handleDatabaseError_trace (e : JsError) (w : World) :
  trace (snd (handleDatabaseError e w)) = (trace w ++ [Logged e])%list
  /\ table (snd (handleDatabaseError e w)) = table w.
Proof.
  run. destruct (response w); cbn;
    destruct (has_code e "23505"), (has_code e "23503"), (has_code e "23514");
    split; reflexivity.
Qed.

Lemma issued_in_app (l r : list Event) :
  issued_in (l ++ r) = (issued_in l ++ issued_in r)%list.
Proof.
  induction l as [|[] l IH]; simpl; congruence.
Qed.

Lemma quiet_reply {A : Type} (f : A -> Z * list (string * Field)) :
  quiet (fun a => res_status_json (fst (f a)) (snd (f a))).
Proof.
  intros a w. unfold res_status_json. now destruct (response w).
Qed.

(** The frame of the products handlers around one statement: whatever is in
    the trace of statements is that statement, and when the store raises on
    it the response is the one of the table of codes. *)
Lemma with_client_store_error (store : Store) (q0 : Query)
    (k : list Row -> M unit) (t t' : Table) (q : Query) (e : JsError) :
  quiet k ->
  let w := snd (with_client store (rows <- client_query store q0 ;; k rows)
                            (fresh t)) in
  In q (issued w) ->
  answer store q t = (Raise e, t') ->
  q = q0 /\ response w = Some (error_response (code e)) /\ table w = t'.
Proof.
  intros Hk w. subst w.
  unfold with_client, try_catch_finally, pool_connect, client_query,
    client_release, bind, issued, emit, fresh.
  cbn [trace table response fst snd List.app].
  destruct (accepts store); cbn [trace table response fst snd List.app issued_in];
    [|intros []].
  destruct (answer store q0 t) as [[rows|e0] t0] eqn:EA;
    cbn [trace table response fst snd List.app].
  - destruct (k rows _) as [[[]|e1] w1] eqn:Ek;
      pose proof (Hk rows {| table := t0; response := None;
                             trace := [Connected; Issued q0] |}) as Ht;
      rewrite Ek in Ht; cbn [snd trace] in Ht.
    + cbn [trace table response fst snd]. rewrite issued_in_app, Ht.
      cbn. intros [<- | []] Hans. rewrite EA in Hans. discriminate.
    + destruct (handleDatabaseError e1 w1) as [r2 w2] eqn:EH.
      pose proof (handleDatabaseError_trace e1 w1) as [Ht2 _].
      rewrite EH in Ht2. cbn [snd] in Ht2.
      cbn [trace table response fst snd].
      rewrite issued_in_app, Ht2, issued_in_app, Ht.
      cbn. intros [<- | []] Hans. rewrite EA in Hans. discriminate.
  - destruct (handleDatabaseError e0 _) as [r2 w2] eqn:EH.
    pose proof (handleDatabaseError_trace e0
                  {| table := t0; response := None;
                     trace := [Connected; Issued q0] |}) as [Ht2 Htab].
    pose proof (handleDatabaseError_reply e0
                  {| table := t0; response := None;
                     trace := [Connected; Issued q0] |} eq_refl) as Hr.
    rewrite EH in Ht2, Htab, Hr. cbn [snd trace table] in Ht2, Htab, Hr.
    cbn [trace table response fst snd].
    rewrite issued_in_app, Ht2. cbn.
    intros [<- | []] Hans. rewrite EA in Hans.
    injection Hans as <- <-. auto.
Qed.

Lemma handler_store_error (store : Store) (req : Request) (h : M unit)
    (t t' : Table) (q : Query) (e : JsError) :
  dispatch (routes store) req = Some h ->
  In q (issued (snd (h (fresh t)))) ->
  answer store q t = (Raise e, t') ->
  (q <> SelectNow ->
   response (snd (h (fresh t))) = Some (error_response (code e)))
  /\ (q = SelectNow ->
      response (snd (h (fresh t))) = Some (unhealthy (message e))).
Proof.
  intros H Hin Hans.
  assert (Hframe : forall q0 k,
            In q (issued (snd (with_client store
                                 (rows <- client_query store q0 ;; k rows)
                                 (fresh t)))) ->
            quiet k -> q0 <> SelectNow ->
            (q <> SelectNow ->
             response (snd (with_client store
                             (rows <- client_query store q0 ;; k rows)
                             (fresh t)))
             = Some (error_response (code e)))
            /\ (q = SelectNow ->
                response (snd (with_client store
                                (rows <- client_query store q0 ;; k rows)
                                (fresh t)))
                = Some (unhealthy (message e)))).
  { intros q0 k Hin0 Hk Hq0.
    destruct (with_client_store_error store q0 k t t' q e Hk Hin0 Hans)
      as (-> & Hr & _).
    split; [intros _; exact Hr | congruence]. }
  destruct (dispatch_cases store req h H)
    as [-> | [[id ->] | [-> | [[id ->] | [[id ->] | [-> | [-> | ->]]]]]]].
  - (* GET /api/products *)
    unfold listProducts in *.
    destruct (param req "sort_order" (Js.QStr "ASC")) as [so| |];
      try (exfalso; revert Hin; run; destruct (accepts store); cbn;
           tauto).
    apply (Hframe
             (SelectProducts (pattern (param req "search" (Js.QStr "")))
                (sortColumn (param req "sort_by" (Js.QStr "stock_code")))
                (if String.eqb (toUpperCase so) "DESC" then "DESC" else "ASC")
                (limit req) (Js.VNum (offset req)))
             (fun rows => res_json [("success", FBool true);
                                    ("data", FRows rows)]) Hin);
      [quiet_reply | discriminate].
  - apply (Hframe _ _ Hin); [quiet_reply | discriminate].
  - unfold validateProduct in *.
    repeat match type of Hin with
           | context [if ?b then _ else _] => destruct b
           end;
      try (exfalso; revert Hin; run; cbn; tauto).
    apply (Hframe _ _ Hin); [quiet_reply | discriminate].
  - unfold validateProduct in *.
    repeat match type of Hin with
           | context [if ?b then _ else _] => destruct b
           end;
      try (exfalso; revert Hin; run; cbn; tauto).
    apply (Hframe _ _ Hin); [quiet_reply | discriminate].
  - apply (Hframe _ _ Hin); [quiet_reply | discriminate].
  - apply (Hframe _ _ Hin); [quiet_reply | discriminate].
  - apply (Hframe _ _ Hin); [quiet_reply | discriminate].
  - (* GET /api/health *)
    revert Hin. run. destruct (accepts store); cbn; [|tauto].
    destruct (answer store SelectNow t) as [[[|[] rows]|e0] t0] eqn:EA;
      cbn; intros [<- | []]; rewrite EA in Hans; try discriminate.
    injection Hans as <- <-. split; [congruence | reflexivity].
Qed.

(** C5, counterexample.  When the statement of the health check fails, the
    response carries the message of the error itself, not a generic one, and
    its status is 500 whatever the code, a unique violation included. *)
Lemma health_check_reports_raw_error :
  reply (failing {| code := Some "23505";
                    message := "duplicate key value violates unique constraint" |})
        (request GET ["api"; "health"] [] no_body) stock
  = Some (unhealthy "duplicate key value violates unique constraint")
  /\ unhealthy "duplicate key value violates unique constraint"
     <> error_response (Some "23505")
  /\ status (unhealthy "duplicate key value violates unique constraint") <> 409
  /\ member "error" (json (unhealthy "duplicate key value violates unique constraint"))
     <> Some (FStr "Internal server error").
Proof. repeat split; discriminate. Qed.

(** C5, as amended.  When the store raises an error on the statement of a
    request, the response of a products endpoint is given by the code of the
    error alone: 409 for 23505 (unique violation), 400 for 23503 (foreign
    key violation), 400 for 23514 (check violation) and 500 with the generic
    message "Internal server error" for any other code or none.  The health
    check answers every error of its statement with status 500 and the
    message of the error. *)
Theorem store_error_status (store : Store) (req : Request) (t t' : Table)
    (w : World) (q : Query) (e : JsError) :
  served store req t = Some w ->
  In q (issued w) ->
  answer store q t = (Raise e, t') ->
  (q <> SelectNow -> response w = Some (error_response (code e)))
  /\ (q = SelectNow -> response w = Some (unhealthy (message e)))
  /\ error_response (Some "23505")
     = {| status := 409; json := [("error", FStr "Duplicate entry detected")] |}
  /\ error_response (Some "23503")
     = {| status := 400; json := [("error", FStr "Invalid foreign key reference")] |}
  /\ error_response (Some "23514")
     = {| status := 400; json := [("error", FStr "Check constraint violation")] |}
  /\ (forall c, c <> Some "23505" -> c <> Some "23503" -> c <> Some "23514" ->
      error_response c
      = {| status := 500; json := [("error", FStr "Internal server error")] |}).
Proof.
  unfold served, app. intros Hs Hin Hans.
  destruct (dispatch (routes store) req) as [h|] eqn:E; [|discriminate].
  destruct (h (fresh t)) as [out w0] eqn:Eh. injection Hs as ->.
  pose proof (handler_store_error store req h t t' q e E) as Hh.
  rewrite Eh in Hh. cbn [snd] in Hh.
  destruct (Hh Hin Hans) as [H1 H2].
  repeat split; auto.
  intros [c|] N1 N2 N3; [|reflexivity].
  unfold error_response. rewrite mapped_status_other; [reflexivity | congruence ..].
Qed.

Lemma store_error_status_witness :
  exists w,
    served (failing (Pg.sqlstate "23505"))
           (request POST ["api"; "products"] []
                    (product_body "A1" "Widget" (Js.VNum (Js.of_Z 5))))
           stock = Some w
    /\ response w
       = Some {| status := 409;
                 json := [("error", FStr "Duplicate entry detected")] |}.
Proof.
  eexists. split.
  - vm_compute. reflexivity.
  - apply (store_error_status (failing (Pg.sqlstate "23505"))
             (request POST ["api"; "products"] []
                      (product_body "A1" "Widget" (Js.VNum (Js.of_Z 5))))
             stock stock _
             (InsertProduct (Js.VStr "A1") (Js.VStr "Widget")
                            (Js.VNum (Js.of_Z 5)))
             (Pg.sqlstate "23505")).
    + vm_compute. reflexivity.
    + vm_compute. auto.
    + reflexivity.
    + discriminate.
Defined.

(** ** C6: what the search matches *)







(** C6, failing input.  The search string "_" is sent as the pattern "%_%",
    in which the underscore stands for any one character: every product is
    returned, though none has an underscore in its stock code or its
    description.  An empty or absent search string sends no pattern. *)
Theorem underscore_search_matches_every_product :
  reply Pg.sample
        (request GET ["api"; "products"] [("search", Js.QStr "_")] no_body)
        stock
  = Some (listing_reply [RProduct widget; RProduct gadget; RProduct bolt])
  /\ forallb (fun p => negb (contains (stock_code p) "_")
                       && negb (contains (description p) "_")) stock = true
  /\ pattern (Js.QStr "_") = Some "%_%"
  /\ pattern (Js.QStr "%") = Some "%%%"
  /\ pattern (Js.QStr "") = None
  /\ (forall b, pattern (param (request GET ["api"; "products"] [] b)
                               "search" (Js.QStr "")) = None).
Proof. repeat split. Qed.

(** ** C7: pages of the list *)

Lemma int_digits_shape (negative : bool) (l : list ascii) (z : Z) :
  Pg.int_digits negative l = Some z ->
  exists ds ws,
    l = (ds ++ ws)%list /\ ds <> [] /\ forallb is_digit ds = true
    /\ forallb is_space ws = true
    /\ z = if negative then - dec_val ds else dec_val ds.
Proof.
  unfold Pg.int_digits. intros H.
  exists (take_while is_digit l), (drop_while is_digit l).
  split; [apply take_drop_while|].
  destruct (take_while is_digit l) as [|c ds] eqn:E; [discriminate|].
  destruct (forallb is_space (drop_while is_digit l)); [|discriminate].
  injection H as <-. repeat split; try discriminate.
  rewrite <- E. apply take_while_forallb.
Qed.

(** What the store reads as an integer, JavaScript reads as the same
    number. *)
Lemma int_in_StringToNumber (s : string) (z : Z) :
  Pg.int_in s = Some z -> Js.StringToNumber s = Js.of_Z z.
Proof.
  unfold Pg.int_in, Js.StringToNumber. intros H.
  rewrite (take_drop_while is_space (chars s)).
  pose proof (take_while_forallb is_space (chars s)) as Hws.
  destruct (drop_while is_space (chars s)) as [|c l'] eqn:E0; [discriminate|].
  pose proof (drop_while_stops is_space (chars s) c l' E0) as Hc.
  destruct (Ascii.eqb_spec c "-") as [-> | Hm];
    [|destruct (Ascii.eqb_spec c "+") as [-> | Hp]];
    destruct (int_digits_shape _ _ _ H) as (ds & ws & El & Hne & Hds & Hsp & ->).
  - rewrite El.
    change (take_while is_space (chars s) ++ "-"%char :: ds ++ ws)%list
      with (take_while is_space (chars s) ++ ("-"%char :: ds) ++ ws)%list.
    rewrite trim_core; auto; try discriminate.
    + now rewrite numeric_signed_digits by auto.
    + simpl. now rewrite digits_not_space.
  - rewrite El.
    change (take_while is_space (chars s) ++ "+"%char :: ds ++ ws)%list
      with (take_while is_space (chars s) ++ ("+"%char :: ds) ++ ws)%list.
    rewrite trim_core; auto; try discriminate.
    + now rewrite numeric_signed_digits by auto.
    + simpl. now rewrite digits_not_space.
  - rewrite El. rewrite trim_core; auto.
    + now apply numeric_digits.
    + now apply digits_not_space.
Qed.




Lemma int_digits_all (negative : bool) (ds : list ascii) :
  ds <> [] -> forallb is_digit ds = true ->
  Pg.int_digits negative ds
  = Some (if negative then - dec_val ds else dec_val ds).
Proof.
  intros Hne Hds. unfold Pg.int_digits.
  rewrite (take_while_all _ _ Hds), (drop_while_all _ _ Hds).
  destruct ds; [congruence | reflexivity].
Qed.

(** The store reads an identifier that is an integer in full as that
    integer. *)
Lemma int_in_integer (id : string) :
  parses_fully_as_integer id = true -> Pg.int_in id = Some (integer_of id).
Proof.
  intros H. destruct (integer_shape id H) as (ds & Hne & Hds & Hshape).
  unfold Pg.int_in.
  destruct Hshape as [[E ->] | [[E ->] | [E ->]]]; rewrite E.
  - destruct ds as [|c ds'] eqn:Eds; [congruence|].
    assert (Hc : is_digit c = true)
      by (simpl in Hds; now apply andb_true_iff in Hds as [Hc _]).
    cbn [drop_while]. rewrite (digit_not_space c Hc).
    rewrite (digit_not c "-" Hc), (digit_not c "+" Hc) by reflexivity.
    now rewrite int_digits_all.
  - change (drop_while is_space ("-"%char :: ds)) with ("-"%char :: ds).
    cbv beta iota. change (Ascii.eqb "-" "-") with true. cbv iota.
    now rewrite int_digits_all.
  - change (drop_while is_space ("+"%char :: ds)) with ("+"%char :: ds).
    cbv beta iota. change (Ascii.eqb "+" "-") with false.
    change (Ascii.eqb "+" "+") with true. cbv iota.
    now rewrite int_digits_all.
Qed.













(** ** C8: the connection is released on every path *)

(** The handler of a request is one of the eight. *)
Lemma dispatched_handler (store : Store) (req : Request) (h : M unit) :
  dispatch (routes store) req = Some h ->
  exists id, In h (handlers store req id).
Proof.
  intros H. unfold handlers.
  destruct (dispatch_cases store req h H)
    as [-> | [[id ->] | [-> | [[id ->] | [[id ->] | [-> | [-> | ->]]]]]]];
    try (exists id; cbn [In]; tauto); exists ""; cbn [In]; tauto.
Qed.

Lemma handler_releases_once (store : Store) (req : Request) (id : string)
    (h : M unit) (t : Table) :
  In h (handlers store req id) ->
  let tr := trace (snd (h (fresh t))) in
  checkouts tr = releases tr /\ (releases tr <= 1)%nat
  /\ released_once tr = true.
Proof.
  unfold handlers.
  intros [<- | [<- | [<- | [<- | [<- | [<- | [<- | [<- | []]]]]]]]];
    run; split_paths; cbn; repeat split; lia.
Qed.

(** C8.  Each of the eight handlers, the low-stock handler among them, on
    every request and identifier, whatever the store answers and whichever
    path the handler takes (a response, a not-found response, a thrown
    store error), returns to the pool every client it checked out, exactly
    once, as its last action: the trace has as many releases as checkouts,
    at most one, and nothing after the release.  So it is for every request
    a route takes. *)
Theorem connection_released_once (store : Store) (req : Request) (t : Table) :
  (forall id h,
     In h (handlers store req id) ->
     let tr := trace (snd (h (fresh t))) in
     checkouts tr = releases tr
     /\ (releases tr <= 1)%nat
     /\ released_once tr = true)
  /\ (forall w,
        served store req t = Some w ->
        checkouts (trace w) = releases (trace w)
        /\ (releases (trace w) <= 1)%nat
        /\ released_once (trace w) = true).
Proof.
  split.
  - intros id h Hh. exact (handler_releases_once store req id h t Hh).
  - unfold served, app. intros w H.
    destruct (dispatch (routes store) req) as [h|] eqn:E; [|discriminate].
    destruct (h (fresh t)) as [out w'] eqn:Eh. injection H as <-.
    destruct (dispatched_handler store req h E) as [id Hh].
    pose proof (handler_releases_once store req id h t Hh) as R.
    cbv zeta in R. now rewrite Eh in R.
Qed.

Lemma connection_released_once_witness :
  let w := snd (lowStock (failing (Pg.sqlstate "23503")) (fresh stock)) in
  trace w = [Connected; Issued SelectLowStock;
             Logged (Pg.sqlstate "23503"); Released]
  /\ checkouts (trace w) = releases (trace w)
  /\ (releases (trace w) <= 1)%nat
  /\ released_once (trace w) = true.
Proof.
  split; [reflexivity|].
  destruct (connection_released_once (failing (Pg.sqlstate "23503"))
              (request GET ["api"; "products"; "low-stock"] [] no_body) stock)
    as [H _].
  apply (H "low-stock" (lowStock (failing (Pg.sqlstate "23503")))).
  unfold handlers. cbn [In]. tauto.
Defined.

(** ** C9: the shape of the responses *)





(** ** C10: an identifier of DELETE or PUT that is no integer *)


Lemma id_route (id : string) :
  id <> "" ->
  match_path [Lit "api"; Lit "products"; Par "id"] ["api"; "products"; id]
  = Some [("id", id)].
Proof.
  intros H. cbn. destruct (String.eqb_spec id ""); [contradiction|reflexivity].
Qed.









(** * Further properties of the handlers *)

(** ** What a request sends to the store *)

Lemma literal_route_is_covered (s : string) (p : list string)
    (params : list (string * string)) :
  lower s <> "" ->
  match_path [Lit "api"; Lit "products"; Lit s] p = Some params ->
  match_path [Lit "api"; Lit "products"; Par "id"] p <> None.
Proof.
  intros Hs. destruct p as [|a [|b [|c [|d p]]]]; cbn [match_path];
    try discriminate;
    destruct (String.eqb (lower a) _); try discriminate;
    try (destruct (String.eqb (lower b) _); try discriminate).
  - destruct (String.eqb_spec (lower c) (lower s)) as [E|]; [|discriminate].
    destruct (String.eqb_spec c "") as [-> |]; [|discriminate].
    intros _. exfalso. apply Hs. now rewrite <- E.
  - destruct (String.eqb (lower c) (lower s)); discriminate.
Qed.

(** The handler of a request by its method; the low-stock handler is the
    handler of none. *)
Lemma dispatch_routes (store : Store) (req : Request) (h : M unit) :
  dispatch (routes store) req = Some h ->
  (method req = GET
   /\ (h = listProducts store req \/ (exists id, h = getProduct store id)
       \/ h = analyticsSummary store \/ h = health store))
  \/ (method req = POST /\ h = validateProduct req (createProduct store req))
  \/ (method req = PUT
      /\ exists id, h = validateProduct req (updateProduct store id req))
  \/ (method req = DELETE /\ exists id, h = deleteProduct store id).
Proof.
  destruct req as [m p q b]. unfold routes, dispatch.
  cbn [method path route_method route_path route_handler].
  destruct m; cbn [method_eqb].
  - destruct (match_path [Lit "api"; Lit "products"] p);
      [intros [= <-]; left; auto|].
    destruct (match_path [Lit "api"; Lit "products"; Par "id"] p) eqn:Eid;
      [intros [= <-]; left; eauto 6|].
    destruct (match_path [Lit "api"; Lit "products"; Lit "analytics";
                          Lit "summary"] p);
      [intros [= <-]; left; auto|].
    destruct (match_path [Lit "api"; Lit "products"; Lit "low-stock"] p)
      eqn:Elow.
    + exfalso.
      apply (literal_route_is_covered "low-stock" p l); [discriminate|..];
        assumption.
    + destruct (match_path [Lit "api"; Lit "health"] p);
        [intros [= <-]; left; auto | discriminate].
  - destruct (match_path [Lit "api"; Lit "products"] p);
      [intros [= <-]; right; left; auto | discriminate].
  - destruct (match_path [Lit "api"; Lit "products"; Par "id"] p);
      [intros [= <-]; right; right; left; eauto | discriminate].
  - destruct (match_path [Lit "api"; Lit "products"; Par "id"] p);
      [intros [= <-]; right; right; right; eauto | discriminate].
Qed.

(** The frame of the products handlers sends its statement and no other. *)
Lemma with_client_issued (store : Store) (q0 : Query) (k : list Row -> M unit)
    (t : Table) :
  quiet k ->
  let w := snd (with_client store (rows <- client_query store q0 ;; k rows)
                            (fresh t)) in
  issued w = [] \/ issued w = [q0].
Proof.
  intros Hk w. subst w.
  unfold with_client, try_catch_finally, pool_connect, client_query,
    client_release, bind, issued, emit, fresh.
  cbn [trace table response fst snd List.app].
  destruct (accepts store); cbn [trace table response fst snd List.app issued_in];
    [|now left].
  right.
  destruct (answer store q0 t) as [[rows|e0] t0];
    cbn [trace table response fst snd List.app].
  - destruct (k rows _) as [[[]|e1] w1] eqn:Ek;
      pose proof (Hk rows {| table := t0; response := None;
                             trace := [Connected; Issued q0] |}) as Ht;
      rewrite Ek in Ht; cbn [snd trace] in Ht.
    + cbn [trace table response fst snd]. now rewrite issued_in_app, Ht.
    + destruct (handleDatabaseError e1 w1) as [r2 w2] eqn:EH.
      pose proof (handleDatabaseError_trace e1 w1) as [Ht2 _].
      rewrite EH in Ht2. cbn [snd] in Ht2.
      cbn [trace table response fst snd].
      now rewrite issued_in_app, Ht2, issued_in_app, Ht.
  - destruct (handleDatabaseError e0 _) as [r2 w2] eqn:EH.
    pose proof (handleDatabaseError_trace e0
                  {| table := t0; response := None;
                     trace := [Connected; Issued q0] |}) as [Ht2 _].
    rewrite EH in Ht2. cbn [snd trace] in Ht2.
    cbn [trace table response fst snd].
    now rewrite issued_in_app, Ht2.
Qed.

(** The statement of each handler. *)
Lemma handler_statement (store : Store) (req : Request) (h : M unit)
    (t : Table) :
  dispatch (routes store) req = Some h ->
  issued (snd (h (fresh t))) = []
  \/ exists q, issued (snd (h (fresh t))) = [q]
       /\ statement_fits (method req) q = true
       /\ interpolation_safe q = true.
Proof.
  intros H.
  assert (Hframe : forall q0 k, quiet k ->
            statement_fits (method req) q0 = true ->
            interpolation_safe q0 = true ->
            issued (snd (with_client store
                           (rows <- client_query store q0 ;; k rows)
                           (fresh t))) = []
            \/ exists q,
                 issued (snd (with_client store
                                (rows <- client_query store q0 ;; k rows)
                                (fresh t))) = [q]
                 /\ statement_fits (method req) q = true
                 /\ interpolation_safe q = true).
  { intros q0 k Hk Hfit Hsafe.
    destruct (with_client_issued store q0 k t Hk) as [E | E];
      [now left | right; eauto]. }
  destruct (dispatch_routes store req h H)
    as [[Hm [-> | [[id ->] | [-> | ->]]]]
       | [[Hm ->] | [[Hm [id ->]] | [Hm [id ->]]]]]; rewrite Hm in Hframe |- *.
  - (* GET /api/products *)
    unfold listProducts.
    destruct (param req "sort_order" (Js.QStr "ASC")) as [so| |];
      try (left; run; destruct (accepts store); reflexivity).
    apply (Hframe
             (SelectProducts (pattern (param req "search" (Js.QStr "")))
                (sortColumn (param req "sort_by" (Js.QStr "stock_code")))
                (if String.eqb (toUpperCase so) "DESC" then "DESC" else "ASC")
                (limit req) (Js.VNum (offset req)))
             (fun rows => res_json [("success", FBool true);
                                    ("data", FRows rows)]));
      [quiet_reply | reflexivity |].
    unfold interpolation_safe.
    replace (existsb (String.eqb (sortColumn (param req "sort_by"
                                                    (Js.QStr "stock_code"))))
                     validSort) with true.
    + now destruct (String.eqb (toUpperCase so) "DESC").
    + unfold sortColumn.
      destruct (param req "sort_by" (Js.QStr "stock_code")) as [x| |];
        try reflexivity.
      destruct (existsb (String.eqb x) validSort) eqn:Ex; [|reflexivity].
      apply existsb_exists in Ex as (y & Hy & Exy).
      apply String.eqb_eq in Exy as <-. symmetry.
      apply existsb_exists. exists x. split; [exact Hy | apply String.eqb_refl].
  - apply Hframe; [quiet_reply | reflexivity |].
    unfold interpolation_safe, searchField.
    now destruct (isNumeric id).
  - apply Hframe; [quiet_reply | reflexivity | reflexivity].
  - (* GET /api/health *)
    run. destruct (accepts store); cbn; [|now left].
    destruct (answer store SelectNow t) as [[[|[] rows]|e0] t0]; cbn;
      right; eexists; repeat split.
  - unfold validateProduct.
    repeat match goal with
           | |- context [if ?b then _ else _] => destruct b
           end;
      try (left; reflexivity).
    apply Hframe; [quiet_reply | reflexivity | reflexivity].
  - unfold validateProduct.
    repeat match goal with
           | |- context [if ?b then _ else _] => destruct b
           end;
      try (left; reflexivity).
    apply Hframe; [quiet_reply | reflexivity | reflexivity].
  - apply Hframe; [quiet_reply | reflexivity | reflexivity].
Qed.

(** X1.  Whatever the request and whatever the store answers, the text of
    the statement sent takes nothing from the caller: the column of ORDER
    BY is one of the four of [validSort], the direction is ASC or DESC, and
    a lookup compares [product_id] or [stock_code]. *)
Theorem statement_text_is_fixed (store : Store) (req : Request) (t : Table)
    (w : World) (q : Query) :
  served store req t = Some w -> In q (issued w) ->
  interpolation_safe q = true.
Proof.
  unfold served, app. intros Hs.
  destruct (dispatch (routes store) req) as [h|] eqn:E; [|discriminate].
  destruct (h (fresh t)) as [out w'] eqn:Eh. injection Hs as <-.
  pose proof (handler_statement store req h t E) as Hh.
  rewrite Eh in Hh. cbn [snd] in Hh.
  destruct Hh as [-> | (q0 & -> & _ & Hsafe)]; [intros [] |].
  now intros [<- | []].
Qed.

Lemma statement_text_is_fixed_witness :
  interpolation_safe
    (SelectProducts None "stock_code" "ASC" (Js.VNum (Js.of_Z 10))
                    (Js.VNum (Js.of_Z 0))) = true.
Proof.
  apply (statement_text_is_fixed Pg.sample
           (request GET ["api"; "products"]
                    [("sort_by", Js.QStr "stock_code; DROP TABLE products")]
                    no_body)
           stock
           (snd (listProducts Pg.sample
                   (request GET ["api"; "products"]
                            [("sort_by",
                              Js.QStr "stock_code; DROP TABLE products")]
                            no_body)
                   (fresh stock)))).
  - reflexivity.
  - vm_compute. auto.
Defined.

(** X2.  A request sends at most one statement, and one of its method: a
    GET only ever sends a SELECT (never the low-stock one, whose route is
    shadowed), a POST the INSERT, a PUT the UPDATE, a DELETE the DELETE. *)
Theorem one_statement_of_the_method (store : Store) (req : Request)
    (t : Table) (w : World) :
  served store req t = Some w ->
  (List.length (issued w) <= 1)%nat
  /\ forall q, In q (issued w) ->
       statement_fits (method req) q = true /\ q <> SelectLowStock.
Proof.
  unfold served, app. intros Hs.
  destruct (dispatch (routes store) req) as [h|] eqn:E; [|discriminate].
  destruct (h (fresh t)) as [out w'] eqn:Eh. injection Hs as <-.
  pose proof (handler_statement store req h t E) as Hh.
  rewrite Eh in Hh. cbn [snd] in Hh.
  destruct Hh as [-> | (q0 & -> & Hfit & _)].
  - split; [cbn; lia | intros q []].
  - split; [cbn; lia |]. intros q [<- | []]. split; [exact Hfit|].
    intros ->. now destruct (method req).
Qed.

Lemma one_statement_of_the_method_witness :
  issued (snd (getProduct Pg.sample "low-stock" (fresh stock)))
  = [SelectWhere "stock_code" (Js.VStr "low-stock")]
  /\ (List.length [SelectWhere "stock_code" (Js.VStr "low-stock")] <= 1)%nat
  /\ forall q, In q [SelectWhere "stock_code" (Js.VStr "low-stock")] ->
       statement_fits GET q = true /\ q <> SelectLowStock.
Proof.
  split; [reflexivity|].
  apply (one_statement_of_the_method Pg.sample
           (request GET ["api"; "products"; "low-stock"] [] no_body) stock
           (snd (getProduct Pg.sample "low-stock" (fresh stock)))).
  reflexivity.
Defined.

(** ** The pool *)

(** X3.  When the pool hands out a client, every request a route takes is
    answered and its handler finishes without throwing, whatever the store
    raises, with one exception: a POST or PUT with a stock code and a
    description whose [unit_price] has no primitive value (an object with a
    member [toString], or an array that holds one).  On it [isNaN] throws
    in the validation middleware, outside any [try]: the service sends no
    response and touches neither the pool nor the store. *)
Theorem every_request_is_answered (store : Store) (req : Request) (t : Table)
    (out : unit + JsError) (w : World) :
  accepts store = true ->
  app store req t = Some (out, w) ->
  if validation_throws req
  then out = inr conversion_error /\ response w = None
       /\ trace w = [] /\ table w = t
  else out = inl tt /\ exists r, response w = Some r.
Proof.
  unfold app. intros Hacc.
  destruct (dispatch (routes store) req) as [h|] eqn:E; [|discriminate].
  intros [= Hh]. revert Hh. unfold validation_throws.
  destruct (dispatch_routes store req h E)
    as [[Hm [-> | [[id ->] | [-> | ->]]]]
       | [[Hm ->] | [[Hm [id ->]] | [Hm [id ->]]]]]; rewrite Hm;
    run; rewrite Hacc; split_paths; cbn; intros [= <- <-];
    first [ split; [reflexivity | eexists; reflexivity]
          | split; [reflexivity | split; [reflexivity | split; reflexivity]] ].
Qed.

Lemma every_request_is_answered_witness :
  (inl tt : unit + JsError) = inl tt
  /\ exists r,
       response
         (snd (deleteProduct (failing (TypeError "socket hang up")) "1"
                             (fresh stock))) = Some r.
Proof.
  apply (every_request_is_answered
           (failing (TypeError "socket hang up"))
           (request DELETE ["api"; "products"; "1"] [] no_body) stock).
  - reflexivity.
  - reflexivity.
Defined.



(** ** Lookup, update and removal by the rows the store returns *)

Lemma get_route (store : Store) (id : string) (q : list (string * Js.qvalue))
    (b : Js.value) :
  id <> "" ->
  dispatch (routes store) (request GET ["api"; "products"; id] q b)
  = Some (getProduct store id).
Proof.
  intros Hid. unfold routes, dispatch, request.
  cbn [method path method_eqb route_method route_path route_handler].
  change (match_path [Lit "api"; Lit "products"] ["api"; "products"; id])
    with (@None (list (string * string))).
  rewrite (id_route id Hid). reflexivity.
Qed.

Lemma delete_route (store : Store) (id : string)
    (q : list (string * Js.qvalue)) (b : Js.value) :
  id <> "" ->
  dispatch (routes store) (request DELETE ["api"; "products"; id] q b)
  = Some (deleteProduct store id).
Proof.
  intros Hid. unfold routes, dispatch, request.
  cbn [method path method_eqb route_method route_path route_handler].
  rewrite (id_route id Hid). reflexivity.
Qed.

(** The frame around a statement whose rows decide between 404 and 200. *)
Lemma found_frame (store : Store) (q0 : Query)
    (members : list (string * Field)) (t : Table) :
  accepts store = true ->
  stringify members = members ->
  let w :=
    snd (with_client store
           (rows <- client_query store q0 ;;
            if (List.length rows =? 0)%nat
            then res_status_json 404 [("error", FStr "Product not found")]
            else res_json (("success", FBool true)
                           :: members ++ [("data", first_row rows)])%list)
           (fresh t)) in
  response w
  = Some match fst (answer store q0 t) with
         | Rows rows => found members rows
         | Raise e => error_response (code e)
         end
  /\ table w = snd (answer store q0 t)
  /\ issued w = [q0].
Proof.
  intros Hacc Hm.
  unfold with_client, try_catch_finally, pool_connect, client_query,
    client_release, res_json, res_status_json, bind, issued, emit, fresh.
  rewrite Hacc. cbn [trace table response fst snd List.app].
  destruct (answer store q0 t) as [[[|r rows]|e] t'];
    cbn [trace table response fst snd List.app List.length Nat.eqb first_row
         issued_in].
  - repeat split.
  - repeat split. unfold found, stringify.
    cbn [filter snd negb]. rewrite filter_app. fold (stringify members).
    now rewrite Hm.
  - pose proof (handleDatabaseError_reply e
                  {| table := t'; response := None;
                     trace := [Connected; Issued q0] |} eq_refl) as Hr.
    pose proof (handleDatabaseError_trace e
                  {| table := t'; response := None;
                     trace := [Connected; Issued q0] |}) as [Ht Htab].
    destruct (handleDatabaseError e _) as [r w]. cbn [snd] in *.
    cbn [trace table response fst snd]. rewrite issued_in_app, Ht.
    repeat split; assumption.
Qed.

(** The three handlers in that frame. *)
Lemma getProduct_frame (store : Store) (id : string) (t : Table) :
  accepts store = true ->
  let q0 := SelectWhere (searchField id) (searchParam id) in
  let w := snd (getProduct store id (fresh t)) in
  response w
  = Some match fst (answer store q0 t) with
         | Rows rows => found [] rows
         | Raise e => error_response (code e)
         end
  /\ table w = snd (answer store q0 t)
  /\ issued w = [q0].
Proof.
  intros Hacc. exact (found_frame store _ [] t Hacc eq_refl).
Qed.

Lemma deleteProduct_frame (store : Store) (id : string) (t : Table) :
  accepts store = true ->
  let w := snd (deleteProduct store id (fresh t)) in
  response w
  = Some match fst (answer store (DeleteProduct id) t) with
         | Rows rows => found [("message", FStr "Product deleted")] rows
         | Raise e => error_response (code e)
         end
  /\ table w = snd (answer store (DeleteProduct id) t)
  /\ issued w = [DeleteProduct id].
Proof.
  intros Hacc.
  exact (found_frame store _ [("message", FStr "Product deleted")] t Hacc
           eq_refl).
Qed.

Lemma updateProduct_frame (store : Store) (id : string) (req : Request)
    (t : Table) :
  accepts store = true ->
  let q0 := UpdateProduct (Js.prop "stock_code" (body req))
                          (Js.prop "description" (body req))
                          (Js.prop "unit_price" (body req)) id in
  let w := snd (updateProduct store id req (fresh t)) in
  response w
  = Some match fst (answer store q0 t) with
         | Rows rows => found [] rows
         | Raise e => error_response (code e)
         end
  /\ table w = snd (answer store q0 t)
  /\ issued w = [q0].
Proof.
  intros Hacc. exact (found_frame store _ [] t Hacc eq_refl).
Qed.

Lemma reply_of_handler (store : Store) (req : Request) (t : Table)
    (h : M unit) :
  dispatch (routes store) req = Some h ->
  reply store req t = response (snd (h (fresh t)))
  /\ served store req t = Some (snd (h (fresh t))).
Proof.
  intros E. unfold reply, served, app. rewrite E.
  now destruct (h (fresh t)).
Qed.

Lemma bind_product_id (n : Z) :
  Pg.in_range 32 n = true ->
  Pg.bind_int 32 (Js.VNum (Js.of_Z n)) = Pg.Ok (Some n).
Proof.
  intros H. cbn [Pg.bind_int]. rewrite to_Z_of_Z.
  unfold Pg.ranged. rewrite H.
  unfold Pg.in_range in H. apply andb_true_iff in H as [H1 H2].
  apply Z.leb_le in H1. apply Z.ltb_lt in H2.
  assert (E31 : 2 ^ (32 - 1) = 2147483648) by reflexivity.
  assert (E21 : 10 ^ 21 = 1000000000000000000000) by reflexivity.
  replace (Z.abs n <? 10 ^ 21) with true; [reflexivity|].
  symmetry. apply Z.ltb_lt. lia.
Qed.

Lemma integer_id_not_empty (id : string) :
  parses_fully_as_integer id = true -> id <> "".
Proof. intros H ->. discriminate. Qed.

(** The lookup of an identifier that is an integer in full. *)
Lemma getProduct_by_integer (store : Store) (id : string)
    (q : list (string * Js.qvalue)) (b : Js.value) (t : Table) :
  Pg.conforms store -> accepts store = true ->
  parses_fully_as_integer id = true ->
  Pg.in_range 32 (integer_of id) = true ->
  reply store (request GET ["api"; "products"; id] q b) t
  = Some (found [] (map RProduct
                        (filter (fun p => product_id p =? integer_of id) t))).
Proof.
  intros Hpg Hacc Hint Hrange.
  destruct (reply_of_handler store _ t _
              (get_route store id q b (integer_id_not_empty id Hint)))
    as [-> _].
  destruct (getProduct_frame store id t Hacc) as (-> & _).
  unfold searchField, searchParam, isNumeric, Js.isNaN. cbn [Js.ToNumber].
  rewrite (StringToNumber_integer id Hint), (parseInt_integer id Hint).
  cbn [Js.is_nan Js.of_Z negb].
  rewrite (Pg.conforms_by_id store Hpg). cbn [fst].
  unfold Pg.select_by_product_id.
  now rewrite (bind_product_id _ Hrange).
Qed.

(** X5.  A GET of [/api/products/<id>] whose [id] parses fully as an
    integer of the range of [product_id] is answered from the products with
    that [product_id] alone: 200 with the first of them, 404 if there is
    none, whatever stock codes the table holds (a product whose stock code
    is that number is not found by it). *)
Theorem get_by_integer_id (store : Store) (id : string)
    (q : list (string * Js.qvalue)) (b : Js.value) (t : Table) :
  Pg.conforms store -> accepts store = true ->
  parses_fully_as_integer id = true ->
  Pg.in_range 32 (integer_of id) = true ->
  reply store (request GET ["api"; "products"; id] q b) t
  = Some (found [] (map RProduct
                        (filter (fun p => product_id p =? integer_of id) t))).
Proof. exact (getProduct_by_integer store id q b t). Qed.

Lemma get_by_integer_id_witness :
  reply Pg.sample (request GET ["api"; "products"; "2"] [] no_body) stock
  = Some {| status := 200;
            json := [("success", FBool true); ("data", FRow (RProduct gadget))] |}.
Proof.
  apply (get_by_integer_id Pg.sample "2" [] no_body stock sample_conforms);
    reflexivity.
Defined.



Lemma int_in_not_empty (id : string) (n : Z) :
  Pg.int_in id = Some n -> id <> "".
Proof. intros H ->. discriminate. Qed.

Lemma delete_product_of (id : string) (n : Z) (t : Table) :
  Pg.int_in id = Some n -> Pg.in_range 32 n = true ->
  Pg.delete_product id t
  = (Rows (map RProduct (filter (fun p => product_id p =? n) t)),
     filter (fun p => negb (product_id p =? n)) t).
Proof.
  intros Hin Hr. unfold Pg.delete_product, Pg.bind_int, Pg.ranged.
  now rewrite Hin, Hr.
Qed.

Lemma filter_out_then_in (n : Z) (t : Table) :
  filter (fun p => product_id p =? n)
         (filter (fun p => negb (product_id p =? n)) t) = [].
Proof.
  induction t as [|p t IH]; [reflexivity|]. cbn [filter].
  destruct (product_id p =? n) eqn:E; cbn [negb filter]; [exact IH|].
  now rewrite E.
Qed.

Lemma filter_out_twice (n : Z) (t : Table) :
  filter (fun p => negb (product_id p =? n))
         (filter (fun p => negb (product_id p =? n)) t)
  = filter (fun p => negb (product_id p =? n)) t.
Proof.
  induction t as [|p t IH]; [reflexivity|]. cbn [filter].
  destruct (product_id p =? n) eqn:E; cbn [negb filter]; [exact IH|].
  rewrite E. cbn [negb]. now rewrite IH.
Qed.

Lemma deleteProduct_served (store : Store) (id : string) (n : Z)
    (q : list (string * Js.qvalue)) (b : Js.value) (t : Table) :
  Pg.conforms store -> accepts store = true ->
  Pg.int_in id = Some n -> Pg.in_range 32 n = true ->
  exists w,
    served store (request DELETE ["api"; "products"; id] q b) t = Some w
    /\ table w = filter (fun p => negb (product_id p =? n)) t
    /\ response w
       = Some (found [("message", FStr "Product deleted")]
                 (map RProduct (filter (fun p => product_id p =? n) t))).
Proof.
  intros Hpg Hacc Hin Hr.
  destruct (reply_of_handler store _ t _
              (delete_route store id q b (int_in_not_empty id n Hin)))
    as [_ Hs].
  eexists. split; [exact Hs|].
  destruct (deleteProduct_frame store id t Hacc) as (-> & -> & _).
  rewrite (Pg.conforms_delete store Hpg), (delete_product_of id n t Hin Hr).
  split; reflexivity.
Qed.

(** X7.  A DELETE of [/api/products/<id>] whose [id] the store reads as an
    integer [n] of the range of [product_id] removes exactly the products
    with that [product_id] and keeps the others in their order; the reply is
    200 with the message and the first removed row, or 404 when no product
    had that identifier, and then the table is as it was. *)
Theorem delete_removes_the_product (store : Store) (id : string) (n : Z)
    (q : list (string * Js.qvalue)) (b : Js.value) (t : Table) (w : World) :
  Pg.conforms store -> accepts store = true ->
  Pg.int_in id = Some n -> Pg.in_range 32 n = true ->
  served store (request DELETE ["api"; "products"; id] q b) t = Some w ->
  table w = filter (fun p => negb (product_id p =? n)) t
  /\ response w
     = Some (found [("message", FStr "Product deleted")]
               (map RProduct (filter (fun p => product_id p =? n) t)))
  /\ (forall p, In p (table w) <-> In p t /\ product_id p <> n)
  /\ (response w = Some not_found -> table w = t).
Proof.
  intros Hpg Hacc Hin Hr Hs.
  destruct (deleteProduct_served store id n q b t Hpg Hacc Hin Hr)
    as (w' & Hs' & Ht & Hresp).
  rewrite Hs in Hs'. injection Hs' as <-.
  split; [exact Ht|]. split; [exact Hresp|]. split.
  - intros p. rewrite Ht, filter_In, negb_true_iff, Z.eqb_neq. tauto.
  - rewrite Hresp, Ht. clear.
    induction t as [|p t IH]; [reflexivity|]. cbn [filter].
    destruct (product_id p =? n) eqn:E; cbn [negb map found].
    + discriminate.
    + intros H. now rewrite IH.
Qed.

Lemma delete_removes_the_product_witness :
  exists w,
    served Pg.sample (request DELETE ["api"; "products"; "2"] [] no_body) stock
    = Some w
    /\ table w = [widget; bolt]
    /\ response w
       = Some {| status := 200;
                 json := [("success", FBool true);
                          ("message", FStr "Product deleted");
                          ("data", FRow (RProduct gadget))] |}.
Proof.
  eexists. split; [reflexivity|].
  destruct (delete_removes_the_product Pg.sample "2" 2 [] no_body stock _
              sample_conforms eq_refl eq_refl eq_refl eq_refl)
    as (Ht & Hr & _).
  split; [exact Ht | exact Hr].
Defined.

(** X8.  Removal is final and idempotent: after a DELETE of an integer
    identifier has been served, a GET of the same identifier is answered
    404, and so is a second DELETE, which leaves the table as the first
    one left it. *)
Theorem deleted_product_is_gone (store : Store) (id : string)
    (q q' : list (string * Js.qvalue)) (b b' : Js.value) (t : Table)
    (w : World) :
  Pg.conforms store -> accepts store = true ->
  parses_fully_as_integer id = true ->
  Pg.in_range 32 (integer_of id) = true ->
  served store (request DELETE ["api"; "products"; id] q b) t = Some w ->
  reply store (request GET ["api"; "products"; id] q' b') (table w)
  = Some not_found
  /\ exists w',
       served store (request DELETE ["api"; "products"; id] q' b') (table w)
       = Some w'
       /\ response w' = Some not_found /\ table w' = table w.
Proof.
  intros Hpg Hacc Hint Hr Hs.
  pose proof (int_in_integer id Hint) as Hin.
  destruct (deleteProduct_served store id _ q b t Hpg Hacc Hin Hr)
    as (w0 & Hs0 & Ht & _).
  rewrite Hs in Hs0. injection Hs0 as <-.
  split.
  - destruct (reply_of_handler store _ (table w) _
                (get_route store id q' b' (integer_id_not_empty id Hint)))
      as [-> _].
    destruct (getProduct_frame store id (table w) Hacc) as (-> & _).
    unfold searchField, searchParam, isNumeric, Js.isNaN. cbn [Js.ToNumber].
    rewrite (StringToNumber_integer id Hint), (parseInt_integer id Hint).
    cbn [Js.is_nan Js.of_Z negb].
    rewrite (Pg.conforms_by_id store Hpg). cbn [fst].
    unfold Pg.select_by_product_id.
    rewrite (bind_product_id _ Hr), Ht, filter_out_then_in. reflexivity.
  - destruct (deleteProduct_served store id _ q' b' (table w) Hpg Hacc Hin Hr)
      as (w' & Hs' & Ht' & Hresp').
    exists w'. split; [exact Hs'|].
    rewrite Hresp', Ht', Ht, filter_out_then_in, filter_out_twice.
    split; reflexivity.
Qed.

Lemma deleted_product_is_gone_witness :
  reply Pg.sample (request GET ["api"; "products"; "2"] [] no_body)
        [widget; bolt]
  = Some not_found.
Proof.
  apply (deleted_product_is_gone Pg.sample "2" [] [] no_body no_body stock
           {| table := [widget; bolt];
              response := Some {| status := 200;
                 json := [("success", FBool true);
                          ("message", FStr "Product deleted");
                          ("data", FRow (RProduct gadget))] |};
              trace := [Connected; Issued (DeleteProduct "2"); Released] |}
           sample_conforms eq_refl eq_refl eq_refl eq_refl).
Defined.

Lemma bind_out_of_range (n : Z) :
  Pg.in_range 32 n = false ->
  exists c, Pg.bind_int 32 (Js.VNum (Js.of_Z n)) = Pg.Err c
            /\ error_response (code (Pg.sqlstate c)) = internal_error.
Proof.
  intros H. cbn [Pg.bind_int]. rewrite to_Z_of_Z. unfold Pg.ranged.
  rewrite H. destruct (Z.abs n <? 10 ^ 21); eexists; split; reflexivity.
Qed.

(** X9.  A GET of [/api/products/<id>] whose [id] is a number for
    JavaScript, but has no integer in front for [parseInt] (blank text,
    "Infinity", ".5") or is an integer outside the range of [product_id], is
    answered 500: the store rejects the parameter, where a missing product
    is answered 404. *)
Theorem unreadable_numeric_id_is_internal_error (store : Store) (id : string)
    (q : list (string * Js.qvalue)) (b : Js.value) (t : Table) :
  Pg.conforms store -> accepts store = true ->
  id <> "" ->
  Js.is_nan (Js.StringToNumber id) = false ->
  Js.parseInt id = Js.NaN
  \/ (parses_fully_as_integer id = true
      /\ Pg.in_range 32 (integer_of id) = false) ->
  reply store (request GET ["api"; "products"; id] q b) t
  = Some internal_error.
Proof.
  intros Hpg Hacc Hid Hnum Hbad.
  destruct (reply_of_handler store _ t _ (get_route store id q b Hid))
    as [-> _].
  destruct (getProduct_frame store id t Hacc) as (-> & _).
  unfold searchField, searchParam, isNumeric, Js.isNaN. cbn [Js.ToNumber].
  rewrite Hnum. cbn [negb].
  rewrite (Pg.conforms_by_id store Hpg). cbn [fst].
  unfold Pg.select_by_product_id.
  destruct Hbad as [-> | [Hint Hr]].
  - reflexivity.
  - rewrite (parseInt_integer id Hint).
    destruct (bind_out_of_range _ Hr) as (c & -> & Hc). now rewrite Hc.
Qed.

Lemma unreadable_numeric_id_is_internal_error_witness :
  reply Pg.sample (request GET ["api"; "products"; "Infinity"] [] no_body) stock
  = Some internal_error
  /\ reply Pg.sample (request GET ["api"; "products"; "4294967297"] [] no_body)
           stock
     = Some internal_error.
Proof.
  split.
  - apply (unreadable_numeric_id_is_internal_error Pg.sample "Infinity" []
             no_body stock sample_conforms eq_refl);
      [discriminate | reflexivity | left; reflexivity].
  - apply (unreadable_numeric_id_is_internal_error Pg.sample "4294967297" []
             no_body stock sample_conforms eq_refl);
      [discriminate | reflexivity | right; split; reflexivity].
Defined.

Lemma filter_unique (f : Product -> bool) (p : Product) (t : Table) :
  In p t -> f p = true ->
  (forall p', In p' t -> f p' = true -> p' = p) ->
  exists rest, filter f t = p :: rest.
Proof.
  intros Hin Hp Huniq.
  destruct (filter f t) as [|h rest] eqn:E.
  - assert (H : In p (filter f t)) by (apply filter_In; now split).
    rewrite E in H. destruct H.
  - assert (H : In h (filter f t)) by (rewrite E; now left).
    apply filter_In in H as [Hh Hfh].
    rewrite (Huniq h Hh Hfh). now exists rest.
Qed.

(** X10.  Where [product_id] and [stock_code] each identify one product of
    the table, and the stock code is ASCII text and no number for
    JavaScript, the product is returned, with status 200, by a GET of its
    identifier written as an integer and by a GET of its stock code
    alike. *)
Theorem product_is_found_by_id_and_by_code (store : Store) (p : Product)
    (id : string) (q : list (string * Js.qvalue)) (b : Js.value) (t : Table) :
  Pg.conforms store -> accepts store = true ->
  In p t ->
  (forall p', In p' t -> product_id p' = product_id p -> p' = p) ->
  (forall p', In p' t -> stock_code p' = stock_code p -> p' = p) ->
  parses_fully_as_integer id = true -> integer_of id = product_id p ->
  Pg.in_range 32 (product_id p) = true ->
  stock_code p <> "" -> ascii_text (stock_code p) = true ->
  Js.is_nan (Js.StringToNumber (stock_code p)) = true ->
  let found_p :=
    Some {| status := 200;
            json := [("success", FBool true); ("data", FRow (RProduct p))] |} in
  reply store (request GET ["api"; "products"; id] q b) t = found_p
  /\ reply store (request GET ["api"; "products"; stock_code p] q b) t
     = found_p.
Proof.
  intros Hpg Hacc Hin Hid Hcode Hint Hn Hr Hsc _ Hnan found_p. subst found_p.
  split.
  - destruct (reply_of_handler store _ t _
                (get_route store id q b (integer_id_not_empty id Hint)))
      as [-> _].
    destruct (getProduct_frame store id t Hacc) as (-> & _).
    unfold searchField, searchParam, isNumeric, Js.isNaN. cbn [Js.ToNumber].
    rewrite (StringToNumber_integer id Hint), (parseInt_integer id Hint).
    cbn [Js.is_nan Js.of_Z negb].
    rewrite (Pg.conforms_by_id store Hpg). cbn [fst].
    unfold Pg.select_by_product_id. rewrite Hn, (bind_product_id _ Hr).
    destruct (filter_unique (fun p' => product_id p' =? product_id p) p t Hin
                (Z.eqb_refl _)) as [rest ->]; [|reflexivity].
    intros p' Hp' E. apply Z.eqb_eq in E. now apply Hid.
  - destruct (reply_of_handler store _ t _
                (get_route store (stock_code p) q b Hsc)) as [-> _].
    destruct (getProduct_frame store (stock_code p) t Hacc) as (-> & _).
    unfold searchField, searchParam, isNumeric, Js.isNaN. cbn [Js.ToNumber].
    rewrite Hnan. cbn [negb].
    rewrite (Pg.conforms_by_code store Hpg). cbn [fst].
    unfold Pg.select_by_stock_code.
    destruct (filter_unique (fun p' => String.eqb (stock_code p') (stock_code p))
                p t Hin (String.eqb_refl _)) as [rest ->]; [|reflexivity].
    intros p' Hp' E. apply String.eqb_eq in E. now apply Hcode.
Qed.

Lemma product_is_found_by_id_and_by_code_witness :
  reply Pg.sample (request GET ["api"; "products"; "3"] [] no_body) stock
  = Some {| status := 200;
            json := [("success", FBool true); ("data", FRow (RProduct bolt))] |}
  /\ reply Pg.sample (request GET ["api"; "products"; "C3"] [] no_body) stock
     = Some {| status := 200;
               json := [("success", FBool true); ("data", FRow (RProduct bolt))] |}.
Proof.
  apply (product_is_found_by_id_and_by_code Pg.sample bolt "3" [] no_body stock
           sample_conforms eq_refl).
  - right. right. now left.
  - intros p' [<- | [<- | [<- | []]]]; (reflexivity || discriminate).
  - intros p' [<- | [<- | [<- | []]]]; (reflexivity || discriminate).
  - reflexivity.
  - reflexivity.
  - reflexivity.
  - discriminate.
  - reflexivity.
  - reflexivity.
Defined.

(** ** The listing: order, search and pages *)











(** *** Orders that tell the rows apart *)







Section UniqueOrder.
Context {A : Type} (le : A -> A -> bool).
Hypothesis le_trans :
  forall a b c, le a b = true -> le b c = true -> le a c = true.

End UniqueOrder.






(** ** The low-stock handler *)

(** X15.  The low-stock handler, once it runs (no route leads to it, see
    [dispatch_routes]), answers 200 with the products whose stock quantity
    is at or below their reorder level, each as often as the table has it,
    in ascending stock quantity, as rows of five columns; it leaves the
    table as it is and returns its client. *)
Theorem low_stock_handler_lists_reorder_candidates (store : Store) (t : Table) :
  Pg.conforms store -> accepts store = true ->
  let w := snd (lowStock store (fresh t)) in
  exists l,
    response w = Some (listing_reply (map Pg.low_stock_row l))
    /\ (forall p, In p l <-> In p t /\ stock_quantity p <= reorder_level p)
    /\ Permutation l (filter Pg.is_low_stock t)
    /\ StronglySorted (fun x y => stock_quantity x <= stock_quantity y) l
    /\ table w = t
    /\ trace w = [Connected; Issued SelectLowStock; Released].
Proof.
  intros Hpg Hacc w.
  destruct (low_stock_selection t) as (l & Hsel & Hperm & Hsort & Hin).
  exists l. subst w. run. rewrite Hacc.
  cbn [trace table response fst snd List.app].
  rewrite (Pg.conforms_low_stock store Hpg), Hsel.
  repeat split; auto; now apply Hin.
Qed.

Lemma low_stock_handler_lists_reorder_candidates_witness :
  exists l,
    response (snd (lowStock Pg.sample (fresh stock)))
    = Some (listing_reply (map Pg.low_stock_row l))
    /\ (forall p, In p l <-> In p stock /\ stock_quantity p <= reorder_level p).
Proof.
  destruct (low_stock_handler_lists_reorder_candidates Pg.sample stock
              sample_conforms eq_refl) as (l & Hr & Hin & _).
  exists l. split; [exact Hr | exact Hin].
Defined.

(** ** The health check *)

Lemma health_route (store : Store) (q : list (string * Js.qvalue))
    (b : Js.value) :
  dispatch (routes store) (request GET ["api"; "health"] q b)
  = Some (health store).
Proof. reflexivity. Qed.

(** X16.  The health check always answers and never throws.  It reports
    200, with the time of the store, exactly when the pool hands out a
    client and the statement returns a row; when the pool refuses, the
    statement fails or no row comes back, it reports 500 with the message of
    that error.  It sends one statement at most and returns the client it
    used. *)
Theorem health_check_reports_the_store (store : Store)
    (q : list (string * Js.qvalue)) (b : Js.value) (t : Table) :
  exists w r,
    app store (request GET ["api"; "health"] q b) t = Some (inl tt, w)
    /\ response w = Some r
    /\ (status r = 200
        <-> accepts store = true
            /\ exists row rows, fst (answer store SelectNow t) = Rows (row :: rows))
    /\ (status r <> 200 -> exists msg, r = unhealthy msg)
    /\ (accepts store = false -> r = unhealthy (message (refusal store)))
    /\ (forall e, accepts store = true ->
          fst (answer store SelectNow t) = Raise e -> r = unhealthy (message e))
    /\ (forall time rows, accepts store = true ->
          fst (answer store SelectNow t) = Rows (RNow time :: rows) ->
          r = healthy time)
    /\ checkouts (trace w) = releases (trace w)
    /\ (List.length (issued w) <= 1)%nat.
Proof.
  unfold app. rewrite health_route. run.
  destruct (accepts store); cbn [trace table response fst snd List.app];
    [destruct (answer store SelectNow t) as [[[|[] rows]|e] t'];
     cbn [trace table response fst snd List.app current_time_of]|];
    eexists _, _; (split; [reflexivity|]); (split; [reflexivity|]); cbn;
    repeat split;
    first [ reflexivity
          | lia
          | now eauto
          | intros; discriminate
          | intros; eexists; reflexivity
          | intros H; now destruct H
          | intros [_ (? & ? & H)]; discriminate
          | intros [H _]; discriminate
          | intros ? _ [= <-]; reflexivity
          | intros ? ? _ [= <- _]; reflexivity ].
Qed.

(** ** Validation in front of the store *)

Lemma written_statement (store : Store) (req : Request) (h : M unit) :
  method req = POST \/ method req = PUT ->
  dispatch (routes store) req = Some h ->
  h = validateProduct req (createProduct store req)
  \/ exists id, h = validateProduct req (updateProduct store id req).
Proof.
  intros Hm H.
  destruct (dispatch_routes store req h H)
    as [[E _] | [[_ ->] | [[_ [id ->]] | [E _]]]]; eauto;
    destruct Hm as [Hm | Hm]; congruence.
Qed.

Lemma createProduct_issued (store : Store) (req : Request) (t : Table) :
  accepts store = true ->
  issued (snd (createProduct store req (fresh t)))
  = [InsertProduct (Js.prop "stock_code" (body req))
                   (Js.prop "description" (body req))
                   (Js.prop "unit_price" (body req))].
Proof.
  intros Hacc. run. rewrite Hacc. split_paths; reflexivity.
Qed.

(** X17.  For a POST or PUT whose JSON body has strings as [stock_code] and
    [description] and a number or nothing as [unit_price], the validation
    turns the request down exactly when one of the strings is empty or the
    price is zero or negative.  A request turned down gets 400 and never
    reaches the pool or the store; any other gets a client and sends its one
    statement with the three fields of the body. *)
Theorem json_body_validation (store : Store) (req : Request) (t : Table)
    (w : World) (sc d : string) (price : Js.value) :
  accepts store = true ->
  method req = POST \/ method req = PUT ->
  body req = product_body sc d price ->
  price = Js.VUndefined \/ (exists x, price = Js.VNum (Js.Fin x)) ->
  served store req t = Some w ->
  let invalid :=
    sc = "" \/ d = "" \/ exists x, price = Js.VNum (Js.Fin x) /\ (x <= 0)%Q in
  (invalid ->
   trace w = [] /\ table w = t
   /\ exists msg, response w = Some (bad_request msg))
  /\ (~ invalid ->
      exists q,
        issued w = [q]
        /\ (q = InsertProduct (Js.VStr sc) (Js.VStr d) price
            \/ exists id, q = UpdateProduct (Js.VStr sc) (Js.VStr d) price id)).
Proof.
  intros Hacc Hm Hbody Hprice Hs invalid.
  unfold served, app in Hs.
  destruct (dispatch (routes store) req) as [h|] eqn:E; [|discriminate].
  destruct (h (fresh t)) as [out w'] eqn:Eh. injection Hs as <-.
  assert (Hw : w' = snd (h (fresh t))) by now rewrite Eh.
  assert (Hfields : Js.prop "stock_code" (body req) = Js.VStr sc
                    /\ Js.prop "description" (body req) = Js.VStr d
                    /\ Js.prop "unit_price" (body req) = price)
    by (rewrite Hbody; repeat split).
  destruct Hfields as (Hsc & Hd & Hp).
  split.
  - intros Hinv.
    assert (Hrej : forall next,
              let w := snd (validateProduct req next (fresh t)) in
              (exists msg, response w = Some {| status := 400;
                                                json := [("error", FStr msg)] |})
              /\ trace w = [] /\ table w = t).
    { intros next. apply validation_rejects. rewrite Hsc, Hd, Hp.
      destruct Hinv as [-> | [-> | (x & -> & Hx)]].
      - now left.
      - right. now left.
      - right. right. split; [reflexivity|]. split; [reflexivity|]. right.
        cbn [Js.ToNumber Js.le Js.of_Z]. now apply Qle_bool_iff. }
    destruct (written_statement store req h Hm E) as [-> | [id ->]];
      rewrite Hw;
      [destruct (Hrej (createProduct store req)) as (Hr & Ht & Htab)
      |destruct (Hrej (updateProduct store id req)) as (Hr & Ht & Htab)];
      repeat split; assumption.
  - intros Hval.
    assert (Hpass : forall next, validateProduct req next = next).
    { intros next. destruct req as [m p q0 b0]. cbn [body] in *. subst b0.
      apply (validation_passes m p q0 sc d price next).
      - intros ->. apply Hval. now left.
      - intros ->. apply Hval. right. now left.
      - destruct Hprice as [-> | [x ->]]; [now left|]. right.
        exists x. split; [reflexivity|].
        destruct (Qle_bool x 0) eqn:Ex; [|reflexivity].
        exfalso. apply Hval. right. right. exists x.
        split; [reflexivity|]. now apply Qle_bool_iff. }
    destruct (written_statement store req h Hm E) as [-> | [id ->]];
      rewrite Hw, Hpass.
    + rewrite (createProduct_issued store req t Hacc), Hsc, Hd, Hp. eauto.
    + destruct (updateProduct_frame store id req t Hacc) as (_ & _ & ->).
      rewrite Hsc, Hd, Hp. eauto.
Qed.

Lemma json_body_validation_witness :
  exists w,
    served Pg.sample
           (request POST ["api"; "products"] []
                    (product_body "A1" "Widget" (Js.VNum (Js.Fin (-1))))) stock
    = Some w
    /\ trace w = [] /\ table w = stock
    /\ exists msg, response w = Some (bad_request msg).
Proof.
  eexists. split; [reflexivity|].
  apply (json_body_validation Pg.sample
           (request POST ["api"; "products"] []
                    (product_body "A1" "Widget" (Js.VNum (Js.Fin (-1)))))
           stock _ "A1" "Widget" (Js.VNum (Js.Fin (-1)))
           eq_refl (or_introl eq_refl) eq_refl
           (or_intror (ex_intro _ (-1)%Q eq_refl)) eq_refl).
  right. right. exists (-1)%Q. split; [reflexivity|]. discriminate.
Defined.

(** ** The console *)

Lemma logged_in_app (l r : list Event) :
  logged_in (l ++ r) = (logged_in l ++ logged_in r)%list.
Proof.
  induction l as [|[] l IH]; simpl; congruence.
Qed.

(** What the frame of a products handler writes to the console. *)
Lemma with_client_logged (store : Store) (q0 : Query)
    (k : list Row -> M unit) (t : Table) :
  quiet k -> (forall rows w, response w = None -> fst (k rows w) = inl tt) ->
  let w := snd (with_client store (rows <- client_query store q0 ;; k rows)
                            (fresh t)) in
  (accepts store = false /\ trace w = [])
  \/ (accepts store = true /\ issued w = [q0]
      /\ match fst (answer store q0 t) with
         | Raise e => logged w = [e]
                      /\ response w = Some (error_response (code e))
         | Rows _ => logged w = []
         end).
Proof.
  intros Hk Hret w. subst w.
  unfold with_client, try_catch_finally, pool_connect, client_query,
    client_release, bind, issued, logged, emit, fresh.
  cbn [trace table response fst snd List.app].
  destruct (accepts store);
    cbn [trace table response fst snd List.app issued_in logged_in];
    [right; split; [reflexivity|] | now left].
  destruct (answer store q0 t) as [[rows|e0] t0];
    cbn [trace table response fst snd List.app].
  - pose proof (Hk rows {| table := t0; response := None;
                           trace := [Connected; Issued q0] |}) as Ht.
    pose proof (Hret rows {| table := t0; response := None;
                             trace := [Connected; Issued q0] |} eq_refl) as Hr.
    destruct (k rows _) as [[[]|e1] w1]; cbn [fst snd trace] in *;
      [|discriminate].
    cbn [trace table response fst snd].
    now rewrite issued_in_app, logged_in_app, Ht.
  - pose proof (handleDatabaseError_reply e0
                  {| table := t0; response := None;
                     trace := [Connected; Issued q0] |} eq_refl) as Hr.
    pose proof (handleDatabaseError_trace e0
                  {| table := t0; response := None;
                     trace := [Connected; Issued q0] |}) as [Ht _].
    destruct (handleDatabaseError e0 _) as [r w]. cbn [snd] in *.
    cbn [trace table response fst snd].
    rewrite issued_in_app, logged_in_app, Ht, issued_in_app, logged_in_app.
    repeat split. exact Hr.
Qed.

Lemma handler_logged (store : Store) (req : Request) (h : M unit) (t : Table) :
  dispatch (routes store) req = Some h ->
  let w := snd (h (fresh t)) in
  (logged w = []
   \/ exists e, logged w = [e] /\ response w = Some (error_response (code e)))
  /\ (forall q e t', In q (issued w) -> q <> SelectNow ->
        answer store q t = (Raise e, t') -> logged w = [e]).
Proof.
  intros H.
  assert (Hframe : forall q0 k,
            quiet k ->
            (forall rows w, response w = None -> fst (k rows w) = inl tt) ->
            let w := snd (with_client store
                            (rows <- client_query store q0 ;; k rows)
                            (fresh t)) in
            (logged w = []
             \/ exists e, logged w = [e]
                          /\ response w = Some (error_response (code e)))
            /\ (forall q e t', In q (issued w) -> q <> SelectNow ->
                  answer store q t = (Raise e, t') -> logged w = [e])).
  { intros q0 k Hk Hret w.
    destruct (with_client_logged store q0 k t Hk Hret)
      as [[_ Ht] | (_ & Hi & Hl)]; fold w in Ht || fold w in Hi, Hl.
    - unfold logged, issued. rewrite Ht. split; [now left|]. intros ? ? ? [].
    - rewrite Hi. destruct (answer store q0 t) as [[rows|e0] t0] eqn:EA;
        cbn [fst] in Hl.
      + split; [now left|]. intros q e t' [<- | []] _ Hans. congruence.
      + destruct Hl as [Hl Hr]. split; [right; eauto|].
        intros q e t' [<- | []] _ Hans. congruence. }
  assert (Hnone : forall w, trace w = [] ->
            (logged w = []
             \/ exists e, logged w = [e]
                          /\ response w = Some (error_response (code e)))
            /\ (forall q e t', In q (issued w) -> q <> SelectNow ->
                  answer store q t = (Raise e, t') -> logged w = [e])).
  { intros w Ht. unfold logged, issued. rewrite Ht.
    split; [now left|]. intros ? ? ? []. }
  destruct (dispatch_cases store req h H)
    as [-> | [[id ->] | [-> | [[id ->] | [[id ->] | [-> | [-> | ->]]]]]]].
  - (* GET /api/products *)
    unfold listProducts.
    destruct (param req "sort_order" (Js.QStr "ASC")) as [so| |];
      [ apply (Hframe
                 (SelectProducts (pattern (param req "search" (Js.QStr "")))
                    (sortColumn (param req "sort_by" (Js.QStr "stock_code")))
                    (if String.eqb (toUpperCase so) "DESC" then "DESC"
                     else "ASC")
                    (limit req) (Js.VNum (offset req)))
                 (fun rows => res_json [("success", FBool true);
                                        ("data", FRows rows)]));
        [quiet_reply | first_reply]
      | | ];
      (run; destruct (accepts store); cbn;
       [split; [right; eexists; split; reflexivity | intros ? ? ? []]
       |split; [now left | intros ? ? ? []]]).
  - apply Hframe; [quiet_reply | first_reply].
  - unfold validateProduct.
    repeat match goal with
           | |- context [if ?b then _ else _] => destruct b
           end;
      try (apply Hnone; reflexivity).
    apply Hframe; [quiet_reply | first_reply].
  - unfold validateProduct.
    repeat match goal with
           | |- context [if ?b then _ else _] => destruct b
           end;
      try (apply Hnone; reflexivity).
    apply Hframe; [quiet_reply | first_reply].
  - apply Hframe; [quiet_reply | first_reply].
  - apply Hframe; [quiet_reply | first_reply].
  - apply Hframe; [quiet_reply | first_reply].
  - (* GET /api/health *)
    run. destruct (accepts store); cbn; [|split; [now left | intros ? ? ? []]].
    destruct (answer store SelectNow t) as [[[|[] rows]|e0] t0]; cbn;
      (split; [now left | intros ? ? ? [<- | []] Hq; now destruct Hq]).
Qed.

(** X18.  The console gets one entry at most for a request, and an entry
    is the error behind the response: the response is then the one the
    error's code maps to.  Every error the store raises on the statement of
    a products endpoint is written there; responses of status 200, 201 and
    404, validation failures and the health check write nothing. *)
Theorem store_errors_are_logged_once (store : Store) (req : Request)
    (t : Table) (w : World) :
  served store req t = Some w ->
  (List.length (logged w) <= 1)%nat
  /\ (forall e, In e (logged w) ->
        logged w = [e] /\ response w = Some (error_response (code e)))
  /\ (forall q e t', In q (issued w) -> q <> SelectNow ->
        answer store q t = (Raise e, t') -> logged w = [e])
  /\ (forall r, response w = Some r ->
        status r = 200 \/ status r = 201 \/ status r = 404 -> logged w = [])
  /\ (In SelectNow (issued w) -> logged w = []).
Proof.
  unfold served, app. intros Hs.
  destruct (dispatch (routes store) req) as [h|] eqn:E; [|discriminate].
  destruct (h (fresh t)) as [out w'] eqn:Eh. injection Hs as <-.
  pose proof (handler_logged store req h t E) as [Hl Hq].
  rewrite Eh in Hl, Hq. cbn [snd] in Hl, Hq.
  assert (Hone : forall e, In e (logged w') ->
            logged w' = [e] /\ response w' = Some (error_response (code e))).
  { intros e He. destruct Hl as [Hl | (e0 & Hl & Hr)].
    - rewrite Hl in He. destruct He.
    - rewrite Hl in He. destruct He as [<- | []]. now split. }
  split; [|split; [exact Hone|split; [exact Hq|split]]].
  - destruct Hl as [-> | (e0 & -> & _)]; cbn; lia.
  - intros r Hr Hstatus.
    destruct (logged w') as [|e l] eqn:El; [reflexivity|].
    destruct (Hone e (or_introl eq_refl)) as [_ Hresp].
    rewrite Hr in Hresp. injection Hresp as ->.
    unfold error_response, mapped_status in Hstatus. cbn [status fst] in Hstatus.
    exfalso.
    repeat match type of Hstatus with
           | context [match ?c with _ => _ end] => destruct c
           end; cbn in Hstatus; lia.
  - assert (Hw : w' = snd (h (fresh t))) by now rewrite Eh.
    clear Eh Hl Hq Hone. subst w'.
    destruct (dispatch_cases store req h E)
      as [-> | [[id ->] | [-> | [[id ->] | [[id ->] | [-> | [-> | ->]]]]]]];
      unfold logged; run; split_paths; cbn; intuition discriminate.
Qed.

Lemma store_errors_are_logged_once_witness :
  logged (snd (deleteProduct (failing (TypeError "socket hang up")) "1"
                             (fresh stock)))
  = [TypeError "socket hang up"].
Proof.
  destruct (store_errors_are_logged_once
              (failing (TypeError "socket hang up"))
              (request DELETE ["api"; "products"; "1"] [] no_body) stock _
              eq_refl) as (_ & _ & H & _).
  apply (H (DeleteProduct "1") (TypeError "socket hang up") stock).
  - now left.
  - discriminate.
  - reflexivity.
Defined.

(** ** Stock codes that are numbers *)

(** X19.  A product whose stock code is written as an integer cannot be
    fetched by its stock code: a GET of that code is a lookup by
    [product_id], so it is answered 404 when no product has that number as
    its identifier, and with the first product that has it otherwise,
    whatever that product's stock code is. *)
Theorem numeric_stock_code_is_not_looked_up (store : Store) (p : Product)
    (q : list (string * Js.qvalue)) (b : Js.value) (t : Table) :
  Pg.conforms store -> accepts store = true ->
  In p t ->
  parses_fully_as_integer (stock_code p) = true ->
  Pg.in_range 32 (integer_of (stock_code p)) = true ->
  let answer_of := reply store (request GET ["api"; "products"; stock_code p] q b) t in
  ((forall p', In p' t -> product_id p' <> integer_of (stock_code p)) ->
   answer_of = Some not_found)
  /\ (forall r, answer_of
                = Some {| status := 200;
                          json := [("success", FBool true); ("data", FRow r)] |} ->
        exists p', r = RProduct p' /\ In p' t
                   /\ product_id p' = integer_of (stock_code p)).
Proof.
  intros Hpg Hacc Hin Hint Hr answer_of. subst answer_of.
  rewrite (getProduct_by_integer store _ q b t Hpg Hacc Hint Hr).
  split.
  - intros Hnone.
    replace (filter (fun p' => product_id p' =? integer_of (stock_code p)) t)
      with (@nil Product); [reflexivity|].
    symmetry. clear Hin. induction t as [|x t IH]; [reflexivity|].
    cbn [filter].
    destruct (Z.eqb_spec (product_id x) (integer_of (stock_code p))) as [E|_].
    + now destruct (Hnone x (or_introl eq_refl)).
    + apply IH. intros p' Hp'. apply Hnone. now right.
  - intros r Hfound.
    destruct (filter (fun p' => product_id p' =? integer_of (stock_code p)) t)
      as [|p' rest] eqn:E; [discriminate|].
    injection Hfound as <-. exists p'. split; [reflexivity|].
    assert (H : In p' (filter (fun p' => product_id p' =? integer_of (stock_code p)) t))
      by (rewrite E; now left).
    apply filter_In in H as [Hp' Hid]. split; [exact Hp'|].
    now apply Z.eqb_eq.
Qed.

Lemma numeric_stock_code_is_not_looked_up_witness :
  reply Pg.sample
        (request GET ["api"; "products"; "22423"] [] no_body)
        [{| product_id := 7; stock_code := "22423";
            description := "Cake stand"; unit_price := Some (51 # 4);
            stock_quantity := 12; reorder_level := 3; is_active := true;
            updated_at := 0 |}]
  = Some not_found.
Proof.
  apply (numeric_stock_code_is_not_looked_up Pg.sample
           {| product_id := 7; stock_code := "22423";
              description := "Cake stand"; unit_price := Some (51 # 4);
              stock_quantity := 12; reorder_level := 3; is_active := true;
              updated_at := 0 |} [] no_body
           [{| product_id := 7; stock_code := "22423";
               description := "Cake stand"; unit_price := Some (51 # 4);
               stock_quantity := 12; reorder_level := 3; is_active := true;
               updated_at := 0 |}]
           sample_conforms eq_refl (or_introl eq_refl) eq_refl eq_refl).
  intros p' [<- | []]. discriminate.
Defined.
